(** * The detokenizer worker of vllm/v1/tokenizer/detokenizer.py

    A shallow embedding of the [Detokenizer] process: the per-request
    incremental decode state ([RequestState]), the registry
    ([self.requests], a dict keyed by request id), the three registry
    operations ([add_request], [free], [detokenize]) and the body of the
    [run] loop, followed by the properties the specification states about
    them.

    Conventions of the embedding.
    - Python exceptions are values of [exn]; a computation that may raise
      returns a [result].  Nothing in the module catches an exception, so
      a raise inside [run] ends the process: the registry is lost with it
      and [Raise] carries no state.
    - [self.requests] is a [gmap string RequestState].  The lists held by a
      [RequestState] are mutated in place by [detokenize]; they are reached
      only through the registry entry ([token_ids] is the list object
      decoded for the registering batch, which is not read again), so the
      updated record written back under the same key is what every later
      reader observes.
    - The tokenizer helpers [convert_prompt_ids_to_tokens] and
      [detokenize_incrementally] are imported from another package and the
      msgpack codec from a library; both are record parameters of the
      development ([Tokenizer], [Codec]). *)

From stdpp Require Import base option list gmap strings.
From Stdlib Require Import ZArith Lia.

Local Open Scope Z_scope.

(** ** Exceptions *)

Inductive exn : Type :=
| KeyError (key : string)      (* dict lookup or [del] of an absent key *)
| IndexError                   (* list index out of range *)
| DecodeError                  (* raised by the msgpack decoder *)
| EncodeError                  (* raised by the msgpack encoder *)
| TokenizerError               (* raised by a tokenizer helper *)
| Again.                       (* zmq.Again: non-blocking send refused *)

Inductive result (A : Type) : Type :=
| Ok (a : A)
| Raise (e : exn).
Arguments Ok {A} a.
Arguments Raise {A} e.

(** [result] is the usual exception monad; stdpp's [x ← c; k] notation
    sequences statements that may raise. *)
Global Instance result_ret : MRet result := λ A, @Ok A.
Global Instance result_bind : MBind result := λ A B k c,
  match c with
  | Ok a => k a
  | Raise e => Raise e
  end.

(** [l[i]] for a list and a non-negative index. *)
Definition index {A : Type} (l : list A) (i : nat) : result A :=
  match l !! i with
  | Some x => Ok x
  | None => Raise IndexError
  end.

(** ** Data model *)

Abbreviation bytes := (list Byte.byte).

(** The two msgspec structs.  Several of their field names are also fields
    of [RequestState], so each struct lives in a module of its name. *)
Module DetokenizerInputs.
Record t : Type := mk {
  req_ids : list string;
  prompt_token_ids : list (list Z);
  new_token_ids : list (list Z);
  skip_special_tokens : list bool;
  spaces_between_special_tokens : list bool;
  free_req_ids : list string;
}.
End DetokenizerInputs.

Module DetokenizerOutputs.
Record t : Type := mk {
  req_ids : list string;
  detokenized_texts : list string;
  num_output_token_ids : list Z;
}.
End DetokenizerOutputs.

Record RequestState : Type := {
  req_id : string;
  token_ids : list Z;
  tokens : list string;
  num_prompt_tokens : Z;
  prefix_offset : Z;
  read_offset : Z;
  skip_special_tokens : bool;
  spaces_between_special_tokens : bool;
  output_text : string;
}.

(** The helpers of [vllm.transformers_utils.detokenizer_utils], already
    applied to [self.tokenizer]. *)
Record Tokenizer : Type := {
  convert_prompt_ids_to_tokens :
    list Z → bool → result (list string * Z * Z);
  detokenize_incrementally :
    list Z → list string → Z → Z → bool → bool →
    result (list string * string * Z * Z);
}.

(** [msgpack.Decoder(DetokenizerInputs).decode] and
    [msgpack.Encoder().encode]. *)
Record Codec : Type := {
  decode : bytes → result DetokenizerInputs.t;
  encode : DetokenizerOutputs.t → result bytes;
}.

Abbreviation Requests := (gmap string RequestState).

(** ** The registry operations *)

Section Detokenizer.
Context (tokenizer : Tokenizer).

(** [Detokenizer.add_request] *)
Definition add_request (requests : Requests) (request_id : string)
    (prompt_ids : list Z) (skip spaces : bool) : result Requests :=
  '(toks, prefix, read) ←
    convert_prompt_ids_to_tokens tokenizer prompt_ids skip;
  Ok (<[request_id := {|
        req_id := request_id;
        token_ids := prompt_ids;
        tokens := toks;
        num_prompt_tokens := Z.of_nat (length prompt_ids);
        prefix_offset := prefix;
        read_offset := read;
        skip_special_tokens := skip;
        spaces_between_special_tokens := spaces;
        output_text := "" |}]> requests).

(** [Detokenizer.free]: [del self.requests[request_id]] *)
Definition free (requests : Requests) (request_id : string)
    : result Requests :=
  match requests !! request_id with
  | Some _ => Ok (delete request_id requests)
  | None => Raise (KeyError request_id)
  end.

(** One iteration of the [for new_token_id in new_token_ids] loop of
    [Detokenizer.detokenize]: the state after the iteration and the text
    fragment the tokenizer revealed. *)
Definition detokenize_one (req_state : RequestState) (new_token_id : Z)
    : result (RequestState * string) :=
  let ids := token_ids req_state ++ [new_token_id] in
  '(new_tokens, new_decoded_token_text, prefix, read) ←
    detokenize_incrementally tokenizer ids (tokens req_state)
      (prefix_offset req_state) (read_offset req_state)
      (skip_special_tokens req_state)
      (spaces_between_special_tokens req_state);
  Ok ({| req_id := req_id req_state;
         token_ids := ids;
         tokens := tokens req_state ++ new_tokens;
         num_prompt_tokens := num_prompt_tokens req_state;
         prefix_offset := prefix;
         read_offset := read;
         skip_special_tokens := skip_special_tokens req_state;
         spaces_between_special_tokens :=
           spaces_between_special_tokens req_state;
         output_text := output_text req_state +:+ new_decoded_token_text |},
      new_decoded_token_text).

(** The whole loop, with the local [decoded_text] as accumulator. *)
Fixpoint detokenize_loop (req_state : RequestState) (decoded_text : string)
    (ids : list Z) : result (RequestState * string) :=
  match ids with
  | [] => Ok (req_state, decoded_text)
  | new_token_id :: rest =>
      '(req_state', new_decoded_token_text) ←
        detokenize_one req_state new_token_id;
      detokenize_loop req_state' (decoded_text +:+ new_decoded_token_text)
        rest
  end.

(** [Detokenizer.detokenize] *)
Definition detokenize (requests : Requests) (request_id : string)
    (ids : list Z) : result (Requests * string) :=
  match requests !! request_id with
  | None => Raise (KeyError request_id)
  | Some req_state =>
      '(req_state', decoded_text) ←
        detokenize_loop req_state "" ids;
      Ok (<[request_id := req_state']> requests, decoded_text)
  end.

(** The [for req_id in inputs.free_req_ids: self.free(req_id)] loop. *)
Fixpoint free_all (requests : Requests) (ids : list string)
    : result Requests :=
  match ids with
  | [] => Ok requests
  | request_id :: rest =>
      requests' ← free requests request_id;
      free_all requests' rest
  end.

(** [len(req_state.token_ids) - req_state.num_prompt_tokens] *)
Definition num_output (req_state : RequestState) : Z :=
  Z.of_nat (length (token_ids req_state)) - num_prompt_tokens req_state.

(** The body of [for i in range(num_reqs)] in [run]: the registry after
    the iteration, and the two values it appends to [detokenized_texts]
    and [num_output_token_ids]. *)
Definition run_index (inputs : DetokenizerInputs.t) (requests : Requests)
    (i : nat) : result (Requests * string * Z) :=
  request_id ← index (DetokenizerInputs.req_ids inputs) i;
  requests1 ←
    match requests !! request_id with
    | Some _ => Ok requests
    | None =>
        prompt_ids ← index (DetokenizerInputs.prompt_token_ids inputs) i;
        skip ← index (DetokenizerInputs.skip_special_tokens inputs) i;
        spaces ←
          index (DetokenizerInputs.spaces_between_special_tokens inputs) i;
        add_request requests request_id prompt_ids skip spaces
    end;
  ids ← index (DetokenizerInputs.new_token_ids inputs) i;
  '(requests2, new_str) ← detokenize requests1 request_id ids;
  match requests2 !! request_id with
  | Some req_state => Ok (requests2, new_str, num_output req_state)
  | None => Raise (KeyError request_id)
  end.

(** The loop itself, over the indices still to visit, with the two local
    lists as accumulators. *)
Fixpoint run_indices (inputs : DetokenizerInputs.t) (requests : Requests)
    (texts : list string) (nums : list Z) (indices : list nat)
    : result (Requests * list string * list Z) :=
  match indices with
  | [] => Ok (requests, texts, nums)
  | i :: rest =>
      '(requests', new_str, n) ← run_index inputs requests i;
      run_indices inputs requests' (texts ++ [new_str]) (nums ++ [n]) rest
  end.

(** Lines 93-119 of [run]: what one decoded batch does to the registry and
    the [DetokenizerOutputs] it builds. *)
Definition run_batch (requests : Requests) (inputs : DetokenizerInputs.t)
    : result (Requests * DetokenizerOutputs.t) :=
  requests1 ← free_all requests (DetokenizerInputs.free_req_ids inputs);
  let num_reqs := length (DetokenizerInputs.req_ids inputs) in
  '(requests2, texts, nums) ←
    run_indices inputs requests1 [] [] (seq 0 num_reqs);
  Ok (requests2,
      DetokenizerOutputs.mk (DetokenizerInputs.req_ids inputs) texts nums).

End Detokenizer.

(** ** The worker loop *)

(** What the process meets at one turn of [while True]: the payload
    [pull_socket.recv()] returns and whether [push_socket] would accept a
    frame at that moment (a [zmq.NOBLOCK] send raises [zmq.Again]
    otherwise). *)
Record Turn : Type := {
  message : bytes;
  push_ready : bool;
}.

(** How one turn ends. *)
Inductive Step : Type :=
| Break                                     (* the terminate signal *)
| Sent (frame : bytes) (requests : Requests) (* a frame was pushed *)
| Died (e : exn).                           (* an exception left [run] *)

(** How the process ends on a finite supply of turns. *)
Inductive Final : Type :=
| Terminated                       (* left the loop through [break] *)
| Crashed (e : exn)                (* an exception left [run] *)
| Waiting (requests : Requests).   (* blocked in [recv]: no turn left *)

Section Worker.
Context (tokenizer : Tokenizer) (codec : Codec).

(** One turn of the [while True] loop of [run]. *)
Definition run_turn (requests : Requests) (turn : Turn) : Step :=
  match message turn with
  | [] => Break
  | _ :: _ =>
      match
        inputs ← decode codec (message turn);
        '(requests', detokenized) ← run_batch tokenizer requests inputs;
        frame ← encode codec detokenized;
        if push_ready turn then Ok (frame, requests') else Raise Again
      with
      | Ok (frame, requests') => Sent frame requests'
      | Raise e => Died e
      end
  end.

(** [run]: the frames pushed, in order, and how the process ended. *)
Fixpoint run (requests : Requests) (turns : list Turn)
    : list bytes * Final :=
  match turns with
  | [] => ([], Waiting requests)
  | turn :: rest =>
      match run_turn requests turn with
      | Break => ([], Terminated)
      | Died e => ([], Crashed e)
      | Sent frame requests' =>
          let '(frames, final) := run requests' rest in
          (frame :: frames, final)
      end
  end.

End Worker.

(** ** Callers' views of a request

    Two definitions that are not in the module but in what is said about
    it: decoding ids one call at a time, and the history of a request from
    its registration on. *)

(** [''.join(parts)] *)
Definition concat_texts (parts : list string) : string :=
  foldr String.app "" parts.

(** [k1 + ... + kn], the number of ids that [n] calls were given. *)
Definition total_ids (calls : list (list Z)) : Z :=
  foldr (λ ids acc, Z.of_nat (length ids) + acc) 0 calls.

(** What advancing by [ids] with returned [text] may change in a state:
    the ids are appended, tokens are only appended, the text is appended,
    and the fields fixed at registration stay as they are.  The offsets are
    whatever the tokenizer returned last. *)
Record advanced_by (ids : list Z) (text : string)
    (req_state req_state' : RequestState) : Prop := {
  adv_req_id : req_id req_state' = req_id req_state;
  adv_token_ids : token_ids req_state' = token_ids req_state ++ ids;
  adv_tokens : ∃ new_tokens,
    tokens req_state' = tokens req_state ++ new_tokens;
  adv_num_prompt_tokens :
    num_prompt_tokens req_state' = num_prompt_tokens req_state;
  adv_skip_special_tokens :
    skip_special_tokens req_state' = skip_special_tokens req_state;
  adv_spaces_between_special_tokens :
    spaces_between_special_tokens req_state' =
    spaces_between_special_tokens req_state;
  adv_output_text : output_text req_state' = output_text req_state +:+ text;
}.

(** A tokenizer whose two helpers return on every input. *)
Definition never_raises (tokenizer : Tokenizer) : Prop :=
  (∀ prompt_ids skip,
     ∃ r, convert_prompt_ids_to_tokens tokenizer prompt_ids skip = Ok r) ∧
  (∀ all_input_ids prev_tokens prefix read skip spaces,
     ∃ r, detokenize_incrementally tokenizer all_input_ids prev_tokens
            prefix read skip spaces = Ok r).

Section Histories.
Context (tokenizer : Tokenizer).

(** One [detokenize] call per id, the returned texts joined in call
    order. *)
Fixpoint detokenize_each (requests : Requests) (request_id : string)
    (ids : list Z) : result (Requests * string) :=
  match ids with
  | [] => Ok (requests, "")
  | id :: rest =>
      '(requests1, text1) ← detokenize tokenizer requests request_id [id];
      '(requests2, text2) ← detokenize_each requests1 request_id rest;
      Ok (requests2, text1 +:+ text2)
  end.

(** [lived request_id req_state calls texts]: [req_state] is what the
    registry holds for [request_id] after it was registered by
    [add_request] and then advanced by [detokenize] calls that were given
    the id lists [calls] and returned [texts], in that order.  Between two
    of them the registry may have changed in any way that left the entry
    of [request_id] alone.  These are the only two operations that write
    an entry; [free] removes it and ends the history. *)
Inductive lived (request_id : string)
    : RequestState → list (list Z) → list string → Prop :=
| lived_registered requests prompt_ids skip spaces requests' req_state :
    add_request tokenizer requests request_id prompt_ids skip spaces
      = Ok requests' →
    requests' !! request_id = Some req_state →
    lived request_id req_state [] []
| lived_advanced req_state calls texts requests ids requests' text
      req_state' :
    lived request_id req_state calls texts →
    requests !! request_id = Some req_state →
    detokenize tokenizer requests request_id ids = Ok (requests', text) →
    requests' !! request_id = Some req_state' →
    lived request_id req_state' (calls ++ [ids]) (texts ++ [text]).

End Histories.

(** ** The wire format

    [msgspec.msgpack] is a library; this is its behaviour on the two structs
    of the module, written from the MessagePack format and the struct
    declarations: a struct travels as a map from field names to values, a
    [List] as an array, [str] as a UTF-8 string, [int] as an integer and
    [bool] as a boolean.  A Python [str] is represented by its UTF-8 bytes.

    The model is used on concrete frames only; every general statement of
    this file is about an arbitrary [Codec].  Those frames are made of the
    fields of a struct, each once, with values of the formats above and
    ASCII strings.  On other frames the model can depart from the library:
    [parse] rejects nil, bin, float and ext wherever they occur, also in a
    field of another name, which the library skips; a string is taken as
    its bytes, valid UTF-8 or not; and of several entries for one field
    name only the last is checked against the field's type. *)

Module Msgpack.

Unset Elimination Schemes.
Inductive value : Type :=
| Bool (b : bool)
| Int (n : Z)
| Str (s : string)
| Array (items : list value)
| Map (entries : list (value * value)).
Set Elimination Schemes.

Definition tag_of (b : Byte.byte) : Z := Z.of_N (Byte.to_N b).

Definition split_at (n : nat) (bs : bytes) : option (bytes * bytes) :=
  if decide (n ≤ length bs)%nat then Some (take n bs, drop n bs) else None.

(** Big-endian unsigned and two's complement integers of [n] bytes. *)
Definition big_endian (bs : bytes) : Z :=
  foldl (λ acc b, acc * 256 + tag_of b) 0 bs.

Definition uint (n : nat) (bs : bytes) : option (Z * bytes) :=
  '(hd, tl) ← split_at n bs; Some (big_endian hd, tl).

Definition sint (n : nat) (bs : bytes) : option (Z * bytes) :=
  '(u, tl) ← uint n bs;
  let m := 2 ^ (8 * Z.of_nat n) in
  Some (if u <? m / 2 then u else u - m, tl).

Definition str (n : Z) (bs : bytes) : option (value * bytes) :=
  '(hd, tl) ← split_at (Z.to_nat n) bs;
  Some (Str (String.string_of_list_byte hd), tl).

(** [n] items in a row, each read by [p]. *)
Fixpoint items {A : Type} (p : bytes → option (A * bytes)) (n : nat)
    (bs : bytes) : option (list A * bytes) :=
  match n with
  | O => Some ([], bs)
  | S n =>
      '(x, bs1) ← p bs;
      '(xs, bs2) ← items p n bs1;
      Some (x :: xs, bs2)
  end.

(** One value off the front of [bs].  Every value takes at least one
    byte, so a fuel of [length bs] is never exhausted. *)
Fixpoint parse (fuel : nat) (bs : bytes) : option (value * bytes) :=
  match fuel, bs with
  | O, _ | _, [] => None
  | S fuel, b :: rest =>
      let tag := tag_of b in
      let int '(n, tl) := Some (Int n, tl) in
      let array '(n, tl) :=
        '(xs, tl') ← items (parse fuel) (Z.to_nat n) tl;
        Some (Array xs, tl') in
      let entry bs :=
        '(k, bs1) ← parse fuel bs;
        '(v, bs2) ← parse fuel bs1;
        Some ((k, v), bs2) in
      let map '(n, tl) :=
        '(xs, tl') ← items entry (Z.to_nat n) tl;
        Some (Map xs, tl') in
      if tag <=? 0x7f then Some (Int tag, rest)
      else if tag <=? 0x8f then map (tag - 0x80, rest)
      else if tag <=? 0x9f then array (tag - 0x90, rest)
      else if tag <=? 0xbf then str (tag - 0xa0) rest
      else if tag =? 0xc2 then Some (Bool false, rest)
      else if tag =? 0xc3 then Some (Bool true, rest)
      else if tag =? 0xcc then uint 1 rest ≫= int
      else if tag =? 0xcd then uint 2 rest ≫= int
      else if tag =? 0xce then uint 4 rest ≫= int
      else if tag =? 0xcf then uint 8 rest ≫= int
      else if tag =? 0xd0 then sint 1 rest ≫= int
      else if tag =? 0xd1 then sint 2 rest ≫= int
      else if tag =? 0xd2 then sint 4 rest ≫= int
      else if tag =? 0xd3 then sint 8 rest ≫= int
      else if tag =? 0xd9 then '(n, tl) ← uint 1 rest; str n tl
      else if tag =? 0xda then '(n, tl) ← uint 2 rest; str n tl
      else if tag =? 0xdb then '(n, tl) ← uint 4 rest; str n tl
      else if tag =? 0xdc then uint 2 rest ≫= array
      else if tag =? 0xdd then uint 4 rest ≫= array
      else if tag =? 0xde then uint 2 rest ≫= map
      else if tag =? 0xdf then uint 4 rest ≫= map
      else if 0xe0 <=? tag then Some (Int (tag - 256), rest)
      else None
  end.

(** Typed conversion, as the decoder built for a struct type does it:
    each field is checked against its own annotation and nothing relates
    one field to another. *)
Definition as_str (v : value) : result string :=
  match v with Str s => Ok s | _ => Raise DecodeError end.

Definition as_int (v : value) : result Z :=
  match v with Int n => Ok n | _ => Raise DecodeError end.

Definition as_bool (v : value) : result bool :=
  match v with Bool b => Ok b | _ => Raise DecodeError end.

Definition as_list {A : Type} (f : value → result A) (v : value)
    : result (list A) :=
  match v with Array xs => mapM f xs | _ => Raise DecodeError end.

(** The value of the field [name]: a later entry for a name replaces an
    earlier one, entries of other names are skipped, a required field
    that is missing is an error. *)
Definition field (entries : list (string * value)) (name : string)
    : result value :=
  match last (filter (λ kv, kv.1 = name) entries) with
  | Some kv => Ok kv.2
  | None => Raise DecodeError
  end.

Definition decode_inputs (v : value) : result DetokenizerInputs.t :=
  match v with
  | Map kvs =>
      entries ← mapM (λ kv, k ← as_str kv.1; Ok (k, kv.2)) kvs;
      req_ids ← field entries "req_ids" ≫= as_list as_str;
      prompt_token_ids ←
        field entries "prompt_token_ids" ≫= as_list (as_list as_int);
      new_token_ids ←
        field entries "new_token_ids" ≫= as_list (as_list as_int);
      skip_special_tokens ←
        field entries "skip_special_tokens" ≫= as_list as_bool;
      spaces_between_special_tokens ←
        field entries "spaces_between_special_tokens" ≫= as_list as_bool;
      free_req_ids ← field entries "free_req_ids" ≫= as_list as_str;
      Ok (DetokenizerInputs.mk req_ids prompt_token_ids new_token_ids
            skip_special_tokens spaces_between_special_tokens free_req_ids)
  | _ => Raise DecodeError
  end.

(** [msgpack.Decoder(DetokenizerInputs).decode]: exactly one value, of
    the struct's shape. *)
Definition decode (message : bytes) : result DetokenizerInputs.t :=
  match parse (length message) message with
  | Some (v, []) => decode_inputs v
  | _ => Raise DecodeError
  end.

(** The encoder writes every length and integer in the shortest format
    that holds it. *)
Definition byte_of (n : Z) : Byte.byte :=
  default Byte.x00 (Byte.of_N (Z.to_N (n mod 256))).

Fixpoint to_big_endian (n : nat) (x : Z) : bytes :=
  match n with
  | O => []
  | S n => to_big_endian n (x / 256) ++ [byte_of x]
  end.

Definition enc_str_header (n : Z) : result bytes :=
  if n <=? 31 then Ok [byte_of (0xa0 + n)]
  else if n <? 2 ^ 8 then Ok (byte_of 0xd9 :: to_big_endian 1 n)
  else if n <? 2 ^ 16 then Ok (byte_of 0xda :: to_big_endian 2 n)
  else if n <? 2 ^ 32 then Ok (byte_of 0xdb :: to_big_endian 4 n)
  else Raise EncodeError.

Definition enc_array_header (n : Z) : result bytes :=
  if n <=? 15 then Ok [byte_of (0x90 + n)]
  else if n <? 2 ^ 16 then Ok (byte_of 0xdc :: to_big_endian 2 n)
  else if n <? 2 ^ 32 then Ok (byte_of 0xdd :: to_big_endian 4 n)
  else Raise EncodeError.

Definition enc_str (s : string) : result bytes :=
  let body := String.list_byte_of_string s in
  header ← enc_str_header (Z.of_nat (length body));
  Ok (header ++ body).

Definition enc_int (x : Z) : result bytes :=
  if 0 <=? x then
    if x <? 2 ^ 7 then Ok [byte_of x]
    else if x <? 2 ^ 8 then Ok (byte_of 0xcc :: to_big_endian 1 x)
    else if x <? 2 ^ 16 then Ok (byte_of 0xcd :: to_big_endian 2 x)
    else if x <? 2 ^ 32 then Ok (byte_of 0xce :: to_big_endian 4 x)
    else if x <? 2 ^ 64 then Ok (byte_of 0xcf :: to_big_endian 8 x)
    else Raise EncodeError
  else
    if - 2 ^ 5 <=? x then Ok [byte_of x]
    else if - 2 ^ 7 <=? x then Ok (byte_of 0xd0 :: to_big_endian 1 x)
    else if - 2 ^ 15 <=? x then Ok (byte_of 0xd1 :: to_big_endian 2 x)
    else if - 2 ^ 31 <=? x then Ok (byte_of 0xd2 :: to_big_endian 4 x)
    else if - 2 ^ 63 <=? x then Ok (byte_of 0xd3 :: to_big_endian 8 x)
    else Raise EncodeError.

Definition enc_list {A : Type} (f : A → result bytes) (l : list A)
    : result bytes :=
  header ← enc_array_header (Z.of_nat (length l));
  body ← mapM f l;
  Ok (header ++ concat body).

(** [msgpack.Encoder().encode] of a [DetokenizerOutputs]: a map of its
    three fields in declaration order. *)
Definition encode (detokenized : DetokenizerOutputs.t) : result bytes :=
  k1 ← enc_str "req_ids";
  v1 ← enc_list enc_str (DetokenizerOutputs.req_ids detokenized);
  k2 ← enc_str "detokenized_texts";
  v2 ← enc_list enc_str (DetokenizerOutputs.detokenized_texts detokenized);
  k3 ← enc_str "num_output_token_ids";
  v3 ← enc_list enc_int
         (DetokenizerOutputs.num_output_token_ids detokenized);
  Ok (byte_of 0x83 :: k1 ++ v1 ++ k2 ++ v2 ++ k3 ++ v3).

End Msgpack.

Definition msgpack_codec : Codec :=
  {| decode := Msgpack.decode; encode := Msgpack.encode |}.

(** ** A fixed tokenizer for concrete runs

    Token id [n] reads as the [n mod 26]-th lower-case letter, every new id
    reveals its letter at once, and the offsets move as those of the real
    helpers do on plain tokens. *)

Definition fake_token (id : Z) : string :=
  String (Ascii.ascii_of_N (Z.to_N (97 + id mod 26))) "".

Definition fake_tokenizer : Tokenizer := {|
  convert_prompt_ids_to_tokens prompt_ids _ :=
    let toks := fake_token <$> prompt_ids in
    let read := Z.of_nat (length toks) in
    Ok (toks, Z.max (read - 5) 0, read);
  detokenize_incrementally all_input_ids prev_tokens _ read _ _ :=
    let id := default 0 (last all_input_ids) in
    Ok ([fake_token id], fake_token id, read,
        Z.of_nat (length prev_tokens) + 1);
|}.

(** ** Concrete registries, batches and frames *)

(** Request [r1] as registered with the prompt [1, 2, 3], then after the
    new id [4], then after the new ids [5, 6]. *)
Definition r1_registered : RequestState := {|
  req_id := "r1"; token_ids := [1; 2; 3]; tokens := ["b"; "c"; "d"];
  num_prompt_tokens := 3; prefix_offset := 0; read_offset := 3;
  skip_special_tokens := false; spaces_between_special_tokens := true;
  output_text := "" |}.

Definition r1_after_4 : RequestState := {|
  req_id := "r1"; token_ids := [1; 2; 3; 4]; tokens := ["b"; "c"; "d"; "e"];
  num_prompt_tokens := 3; prefix_offset := 3; read_offset := 4;
  skip_special_tokens := false; spaces_between_special_tokens := true;
  output_text := "e" |}.

Definition r1_after_4_5_6 : RequestState := {|
  req_id := "r1"; token_ids := [1; 2; 3; 4; 5; 6];
  tokens := ["b"; "c"; "d"; "e"; "f"; "g"];
  num_prompt_tokens := 3; prefix_offset := 5; read_offset := 6;
  skip_special_tokens := false; spaces_between_special_tokens := true;
  output_text := "efg" |}.

(** [r1] arrives with its prompt and a first new id. *)
Definition batch_first : DetokenizerInputs.t :=
  DetokenizerInputs.mk ["r1"] [[1; 2; 3]] [[4]] [false] [true] [].

(** [r1] goes on, with an empty prompt list as for every known request;
    the flags sent differ from those it was registered with. *)
Definition batch_next : DetokenizerInputs.t :=
  DetokenizerInputs.mk ["r1"] [[]] [[5; 6]] [true] [false] [].

(** [r1] is freed; the batch has no request to decode. *)
Definition batch_free : DetokenizerInputs.t :=
  DetokenizerInputs.mk [] [] [] [] [] ["r1"].

(** [r1] is named again after it was freed, without prompt ids. *)
Definition batch_again : DetokenizerInputs.t :=
  DetokenizerInputs.mk ["r1"] [[]] [[4; 5]] [false] [true] [].


(** Two requests, the second one twice. *)
Definition batch_three : DetokenizerInputs.t :=
  DetokenizerInputs.mk ["r2"; "r1"; "r2"] [[10; 11]; [1; 2; 3]; []]
    [[12]; [4]; [13; 14]] [false; false; false] [true; true; true] [].

Definition str_bytes (s : string) : bytes := String.list_byte_of_string s.

(** The msgpack encoding of a batch with no request and no eviction: a map
    of the six fields, each an empty array. *)
Definition frame_empty_batch : bytes :=
  [Byte.x86] ++
  [Byte.xa7] ++ str_bytes "req_ids" ++ [Byte.x90] ++
  [Byte.xb0] ++ str_bytes "prompt_token_ids" ++ [Byte.x90] ++
  [Byte.xad] ++ str_bytes "new_token_ids" ++ [Byte.x90] ++
  [Byte.xb3] ++ str_bytes "skip_special_tokens" ++ [Byte.x90] ++
  [Byte.xbd] ++ str_bytes "spaces_between_special_tokens" ++ [Byte.x90] ++
  [Byte.xac] ++ str_bytes "free_req_ids" ++ [Byte.x90].

(** The msgpack encoding of a response with three empty arrays. *)
Definition frame_empty_response : bytes :=
  [Byte.x83] ++
  [Byte.xa7] ++ str_bytes "req_ids" ++ [Byte.x90] ++
  [Byte.xb1] ++ str_bytes "detokenized_texts" ++ [Byte.x90] ++
  [Byte.xb4] ++ str_bytes "num_output_token_ids" ++ [Byte.x90].

(** A frame whose arrays disagree in length: one request id, one prompt,
    one entry for each flag, and no entry in [new_token_ids]. *)
Definition frame_short_new_token_ids : bytes :=
  [Byte.x86] ++
  [Byte.xa7] ++ str_bytes "req_ids" ++
    [Byte.x91; Byte.xa2] ++ str_bytes "r1" ++
  [Byte.xb0] ++ str_bytes "prompt_token_ids" ++
    [Byte.x91; Byte.x93; Byte.x01; Byte.x02; Byte.x03] ++
  [Byte.xad] ++ str_bytes "new_token_ids" ++ [Byte.x90] ++
  [Byte.xb3] ++ str_bytes "skip_special_tokens" ++ [Byte.x91; Byte.xc2] ++
  [Byte.xbd] ++ str_bytes "spaces_between_special_tokens" ++
    [Byte.x91; Byte.xc3] ++
  [Byte.xac] ++ str_bytes "free_req_ids" ++ [Byte.x90].

Definition batch_short_new_token_ids : DetokenizerInputs.t :=
  DetokenizerInputs.mk ["r1"] [[1; 2; 3]] [] [false] [true] [].

(** ** The registry between two batches *)

(** [Detokenizer.__init__]: [self.requests = {}]. *)
Definition init_requests : Requests := ∅.

(** What [add_request] and [detokenize] keep true of the entry filed under
    [request_id]: it carries that id, and its prompt count is a length that
    its list of ids has reached. *)
Definition state_ok (request_id : string) (req_state : RequestState)
    : Prop :=
  req_id req_state = request_id ∧
  0 ≤ num_prompt_tokens req_state ≤ Z.of_nat (length (token_ids req_state)).

Definition registry_ok (requests : Requests) : Prop :=
  map_Forall state_ok requests.

(** Two batches for the turns of a longer run: [r2] arrives, then [r1] and
    [r2] go on. *)
Definition batch_r2_first : DetokenizerInputs.t :=
  DetokenizerInputs.mk ["r2"] [[10; 11]] [[12]] [false] [true] [].

Definition batch_r1_r2_next : DetokenizerInputs.t :=
  DetokenizerInputs.mk ["r1"; "r2"] [[]; []] [[5; 6]; [13; 14]]
    [false; false] [true; true] [].

(** A codec for runs that are about the loop and not about the wire: the
    payload is one byte that names the batch, the response is encoded by
    the msgpack encoder. *)
Definition tag_codec : Codec := {|
  decode m :=
    match m with
    | [Byte.x01] => Ok batch_first
    | [Byte.x02] => Ok batch_r2_first
    | [Byte.x03] => Ok batch_r1_r2_next
    | [Byte.x04] => Ok batch_free
    | _ => Raise DecodeError
    end;
  encode := Msgpack.encode;
|}.

(** A tokenizer that knows no negative id: as [fake_tokenizer], but its
    incremental step raises on one. *)
Definition fragile_tokenizer : Tokenizer := {|
  convert_prompt_ids_to_tokens :=
    convert_prompt_ids_to_tokens fake_tokenizer;
  detokenize_incrementally all_input_ids prev_tokens prefix read skip
      spaces :=
    if default 0 (last all_input_ids) <? 0 then Raise TokenizerError
    else detokenize_incrementally fake_tokenizer all_input_ids prev_tokens
           prefix read skip spaces;
|}.

(** [r1] named at two indices of one batch. *)
Definition batch_r1_twice : DetokenizerInputs.t :=
  DetokenizerInputs.mk ["r1"; "r1"] [[]; []] [[4]; [5; 6]] [false; false]
    [true; true] [].

(** Request [r2] as registered with the prompt [10, 11] and advanced by
    the new id [12]. *)
Definition r2_after_12 : RequestState := {|
  req_id := "r2"; token_ids := [10; 11; 12]; tokens := ["k"; "l"; "m"];
  num_prompt_tokens := 2; prefix_offset := 2; read_offset := 3;
  skip_special_tokens := false; spaces_between_special_tokens := true;
  output_text := "m" |}.

(** ** Strings *)

Lemma string_app_nil_r (s : string) : s +:+ "" = s.
Proof.
  induction s as [|c s IH]; [done|].
  change (String c (s +:+ "") = String c s). by rewrite IH.
Qed.

Lemma string_app_assoc (s1 s2 s3 : string) :
  s1 +:+ s2 +:+ s3 = (s1 +:+ s2) +:+ s3.
Proof.
  induction s1 as [|c s1 IH]; [done|].
  change (String c (s1 +:+ s2 +:+ s3) = String c ((s1 +:+ s2) +:+ s3)).
  by rewrite IH.
Qed.

Lemma concat_texts_snoc (parts : list string) (s : string) :
  concat_texts (parts ++ [s]) = concat_texts parts +:+ s.
Proof.
  induction parts as [|p parts IH].
  - change (s +:+ "" = s). apply string_app_nil_r.
  - change (p +:+ concat_texts (parts ++ [s])
            = (p +:+ concat_texts parts) +:+ s).
    by rewrite IH, string_app_assoc.
Qed.

(** ** The exception monad *)

Lemma rbind_Ok {A B : Type} (c : result A) (k : A → result B) (b : B) :
  c ≫= k = Ok b → ∃ a, c = Ok a ∧ k a = Ok b.
Proof. destruct c as [a|e]; [eauto | done]. Qed.

Lemma rbind_assoc {A B C : Type} (c : result A) (k : A → result B)
    (h : B → result C) :
  (c ≫= k) ≫= h = c ≫= (λ a, k a ≫= h).
Proof. by destruct c. Qed.

Lemma rbind_ext {A B : Type} (c : result A) (k h : A → result B) :
  (∀ a, k a = h a) → c ≫= k = c ≫= h.
Proof. intros Hkh. destruct c; [apply Hkh | done]. Qed.

Lemma index_Ok {A : Type} (l : list A) (i : nat) (x : A) :
  index l i = Ok x ↔ l !! i = Some x.
Proof. unfold index. destruct (l !! i); naive_solver. Qed.

(** ** The decode loop *)

Section DetokenizeFacts.
Context (tokenizer : Tokenizer).
Implicit Types (req_state : RequestState) (requests : Requests).
Implicit Types (ids : list Z) (request_id : string).

(** The loop started on the ids [xs ++ ys] is the loop on [xs] continued
    on [ys] with the text gathered so far. *)
Lemma detokenize_loop_app req_state acc xs ys :
  detokenize_loop tokenizer req_state acc (xs ++ ys) =
  '(req_state1, text1) ← detokenize_loop tokenizer req_state acc xs;
  detokenize_loop tokenizer req_state1 text1 ys.
Proof.
  revert req_state acc.
  induction xs as [|x xs IH]; intros req_state acc; [done|].
  cbn [app detokenize_loop].
  destruct (detokenize_one tokenizer req_state x) as [[st1 t1]|e]; [|done].
  apply IH.
Qed.

(** The accumulator is only ever extended on the right. *)
Lemma detokenize_loop_acc req_state acc ids :
  detokenize_loop tokenizer req_state acc ids =
  '(req_state', text) ← detokenize_loop tokenizer req_state "" ids;
  Ok (req_state', acc +:+ text).
Proof.
  revert req_state acc.
  induction ids as [|id ids IH]; intros req_state acc.
  - cbn. by rewrite string_app_nil_r.
  - cbn [detokenize_loop].
    destruct (detokenize_one tokenizer req_state id) as [[st1 t1]|e];
      [|done].
    cbn. change ("" +:+ t1) with t1.
    rewrite (IH st1 (acc +:+ t1)), (IH st1 t1).
    destruct (detokenize_loop tokenizer st1 "" ids) as [[st2 t2]|e];
      [|done].
    cbn. by rewrite string_app_assoc.
Qed.

Lemma detokenize_loop_split req_state xs ys :
  detokenize_loop tokenizer req_state "" (xs ++ ys) =
  '(req_state1, text1) ← detokenize_loop tokenizer req_state "" xs;
  '(req_state2, text2) ← detokenize_loop tokenizer req_state1 "" ys;
  Ok (req_state2, text1 +:+ text2).
Proof.
  rewrite detokenize_loop_app.
  apply rbind_ext. intros [st1 t1]. apply detokenize_loop_acc.
Qed.

(** [detokenize] leaves the request registered, holding the state the
    loop ended in. *)
Lemma detokenize_Ok requests request_id ids requests' text :
  detokenize tokenizer requests request_id ids = Ok (requests', text) →
  ∃ req_state req_state',
    requests !! request_id = Some req_state ∧
    detokenize_loop tokenizer req_state "" ids = Ok (req_state', text) ∧
    requests' = <[request_id := req_state']> requests.
Proof.
  unfold detokenize. destruct (requests !! request_id) as [st|]; [|done].
  destruct (detokenize_loop tokenizer st "" ids) as [[st' t]|e] eqn:Hloop;
    [|done].
  cbn. intros [= <- <-]. eauto.
Qed.

Lemma detokenize_live requests request_id req_state ids :
  requests !! request_id = Some req_state →
  detokenize tokenizer requests request_id ids =
  '(req_state', text) ← detokenize_loop tokenizer req_state "" ids;
  Ok (<[request_id := req_state']> requests, text).
Proof. unfold detokenize. by intros ->. Qed.

(** The consistency law on the registry: one call on [xs ++ ys] is a call
    on [xs] followed by a call on [ys].  It holds for an unregistered id
    too, where both sides raise the same [KeyError]. *)
Lemma detokenize_app requests request_id xs ys :
  detokenize tokenizer requests request_id (xs ++ ys) =
  '(requests1, text1) ← detokenize tokenizer requests request_id xs;
  '(requests2, text2) ← detokenize tokenizer requests1 request_id ys;
  Ok (requests2, text1 +:+ text2).
Proof.
  destruct (requests !! request_id) as [st|] eqn:Hst.
  - rewrite !(detokenize_live _ _ st) by done.
    rewrite detokenize_loop_split, !rbind_assoc.
    apply rbind_ext. intros [st1 t1]. cbn.
    rewrite (detokenize_live _ _ st1) by apply lookup_insert_eq.
    destruct (detokenize_loop tokenizer st1 "" ys) as [[st2 t2]|e];
      [|done].
    cbn. by rewrite insert_insert_eq.
  - unfold detokenize. by rewrite Hst.
Qed.

Lemma detokenize_nil requests request_id req_state :
  requests !! request_id = Some req_state →
  detokenize tokenizer requests request_id [] = Ok (requests, "").
Proof.
  intros Hst. rewrite (detokenize_live _ _ req_state) by done.
  cbn. by rewrite insert_id.
Qed.

Lemma detokenize_each_eq requests request_id req_state ids :
  requests !! request_id = Some req_state →
  detokenize_each tokenizer requests request_id ids =
  detokenize tokenizer requests request_id ids.
Proof.
  revert requests req_state.
  induction ids as [|id ids IH]; intros requests req_state Hst.
  - symmetry. by eapply detokenize_nil.
  - cbn [detokenize_each].
    change (id :: ids) with ([id] ++ ids). rewrite detokenize_app.
    destruct (detokenize tokenizer requests request_id [id])
      as [[requests1 text1]|e] eqn:Hone; [|done].
    apply detokenize_Ok in Hone as (st & st1 & _ & _ & ->).
    cbn. by erewrite IH by apply lookup_insert_eq.
Qed.

(** C1.  Incremental consistency: for a registered request, advancing by
    [[a; b]] in one [detokenize] call returns the same text and leaves the
    same registry as advancing by [[a]], then by [[b]], and joining the
    two texts; and for any list of new ids, one call per id with the
    texts joined equals one call on the whole list. *)
Theorem detokenize_incremental_consistency requests request_id req_state :
  requests !! request_id = Some req_state →
  (∀ a b,
     detokenize tokenizer requests request_id [a; b] =
     '(requests1, text1) ← detokenize tokenizer requests request_id [a];
     '(requests2, text2) ← detokenize tokenizer requests1 request_id [b];
     Ok (requests2, text1 +:+ text2)) ∧
  (∀ ids,
     detokenize_each tokenizer requests request_id ids =
     detokenize tokenizer requests request_id ids).
Proof.
  intros Hst. split.
  - intros a b. apply (detokenize_app requests request_id [a] [b]).
  - intros ids. by eapply detokenize_each_eq.
Qed.

(** C9.  Advancing a registered request by no new ids returns the empty
    string and changes nothing: the loop ends in the state it started
    from, and the registry, hence every field of the entry, is as
    before. *)
Theorem detokenize_no_new_ids requests request_id req_state :
  requests !! request_id = Some req_state →
  detokenize_loop tokenizer req_state "" [] = Ok (req_state, "") ∧
  detokenize tokenizer requests request_id [] = Ok (requests, "").
Proof. intros Hst. split; [done | by eapply detokenize_nil]. Qed.

End DetokenizeFacts.

(** ** What an advance changes in a state *)

Section StateFacts.
Context (tokenizer : Tokenizer).
Implicit Types (req_state : RequestState) (requests : Requests).
Implicit Types (ids : list Z) (request_id text : string).

Lemma advanced_by_trans ids1 text1 ids2 text2 req_state req_state1
    req_state2 :
  advanced_by ids1 text1 req_state req_state1 →
  advanced_by ids2 text2 req_state1 req_state2 →
  advanced_by (ids1 ++ ids2) (text1 +:+ text2) req_state req_state2.
Proof.
  intros [E1 E2 [new1 E3] E4 E5 E6 E7] [F1 F2 [new2 F3] F4 F5 F6 F7].
  split; try congruence.
  - by rewrite F2, E2, (assoc_L (++)).
  - exists (new1 ++ new2). by rewrite F3, E3, (assoc_L (++)).
  - by rewrite F7, E7, string_app_assoc.
Qed.

Lemma detokenize_one_advanced req_state id req_state' text :
  detokenize_one tokenizer req_state id = Ok (req_state', text) →
  advanced_by [id] text req_state req_state'.
Proof.
  unfold detokenize_one. intros H.
  apply rbind_Ok in H as ([[[new_tokens t] prefix] read] & _ & H).
  injection H as <- <-. split; cbn; eauto.
Qed.

Lemma detokenize_loop_advanced req_state ids req_state' text :
  detokenize_loop tokenizer req_state "" ids = Ok (req_state', text) →
  advanced_by ids text req_state req_state'.
Proof.
  revert req_state text.
  induction ids as [|id ids IH]; intros req_state text H.
  - injection H as <- <-. split; try done.
    + by rewrite (right_id_L [] (++)).
    + exists []. by rewrite (right_id_L [] (++)).
    + by rewrite string_app_nil_r.
  - cbn [detokenize_loop] in H.
    apply rbind_Ok in H as ([st1 t1] & Hone & H).
    change ("" +:+ t1) with t1 in H. rewrite detokenize_loop_acc in H.
    apply rbind_Ok in H as ([st2 t2] & Hrest & H).
    injection H as <- <-.
    apply (advanced_by_trans [id] t1 ids t2 _ st1).
    + by apply detokenize_one_advanced.
    + by apply IH.
Qed.

Lemma add_request_Ok requests request_id prompt_ids skip spaces requests' :
  add_request tokenizer requests request_id prompt_ids skip spaces
    = Ok requests' →
  ∃ req_state,
    requests' = <[request_id := req_state]> requests ∧
    req_id req_state = request_id ∧
    token_ids req_state = prompt_ids ∧
    num_prompt_tokens req_state = Z.of_nat (length prompt_ids) ∧
    skip_special_tokens req_state = skip ∧
    spaces_between_special_tokens req_state = spaces ∧
    output_text req_state = "".
Proof.
  unfold add_request. intros H.
  apply rbind_Ok in H as ([[toks prefix] read] & _ & H).
  injection H as <-. eexists. split; [done|]. by cbn.
Qed.

Lemma detokenize_advanced requests request_id req_state ids requests' text
    req_state' :
  requests !! request_id = Some req_state →
  detokenize tokenizer requests request_id ids = Ok (requests', text) →
  requests' !! request_id = Some req_state' →
  advanced_by ids text req_state req_state'.
Proof.
  intros Hst Hdet Hst'.
  apply detokenize_Ok in Hdet as (st & st' & Hst0 & Hloop & ->).
  rewrite lookup_insert_eq in Hst'. simplify_eq.
  by apply detokenize_loop_advanced.
Qed.

Lemma total_ids_snoc (calls : list (list Z)) ids :
  total_ids (calls ++ [ids]) = total_ids calls + Z.of_nat (length ids).
Proof.
  induction calls as [|k calls IH]; unfold total_ids in *;
    cbn [app foldr] in *; lia.
Qed.

(** Along a history the output count is the number of ids given. *)
Lemma lived_num_output request_id req_state calls texts :
  lived tokenizer request_id req_state calls texts →
  num_output req_state = total_ids calls.
Proof.
  induction 1 as [requests prompt_ids skip spaces requests' st Hadd Hst
                 |st calls texts requests ids requests' text st' _ IH
                    Hst Hdet Hst'].
  - apply add_request_Ok in Hadd as (st0 & -> & _ & Hids & Hnum & _).
    rewrite lookup_insert_eq in Hst. injection Hst as <-.
    unfold num_output. rewrite Hids, Hnum. cbn. lia.
  - destruct (detokenize_advanced _ _ _ _ _ _ _ Hst Hdet Hst')
      as [_ Hids _ Hnum _ _ _].
    rewrite total_ids_snoc, <- IH. unfold num_output.
    rewrite Hids, Hnum, length_app. lia.
Qed.

(** C8.  Along the whole history of a registered request (registration,
    then any number of advances, with anything happening to other
    requests in between) [output_text] is the concatenation, in call
    order, of the texts the advances returned. *)
Theorem output_text_is_concatenation request_id req_state calls texts :
  lived tokenizer request_id req_state calls texts →
  output_text req_state = concat_texts texts.
Proof.
  induction 1 as [requests prompt_ids skip spaces requests' st Hadd Hst
                 |st calls texts requests ids requests' text st' _ IH
                    Hst Hdet Hst'].
  - apply add_request_Ok in Hadd as (st0 & -> & _ & _ & _ & _ & _ & Hout).
    rewrite lookup_insert_eq in Hst. by injection Hst as <-.
  - destruct (detokenize_advanced _ _ _ _ _ _ _ Hst Hdet Hst')
      as [_ _ _ _ _ _ Hout].
    by rewrite concat_texts_snoc, <- IH.
Qed.

End StateFacts.

(** ** One index of a batch *)

Section IndexFacts.
Context (tokenizer : Tokenizer).
Implicit Types (req_state : RequestState) (requests : Requests).
Implicit Types (ids : list Z) (request_id text : string).
Implicit Types (inputs : DetokenizerInputs.t).

(** A successful iteration, taken apart: the id is registered from the
    index's prompt fields if the registry does not hold it, then advanced
    by the index's new ids, and the count is read off the advanced
    state. *)
Lemma run_index_Ok inputs requests i requests' text n :
  run_index tokenizer inputs requests i = Ok (requests', text, n) →
  ∃ request_id ids requests1 req_state',
    DetokenizerInputs.req_ids inputs !! i = Some request_id ∧
    DetokenizerInputs.new_token_ids inputs !! i = Some ids ∧
    match requests !! request_id with
    | Some _ => requests1 = requests
    | None => ∃ prompt_ids skip spaces,
        DetokenizerInputs.prompt_token_ids inputs !! i = Some prompt_ids ∧
        DetokenizerInputs.skip_special_tokens inputs !! i = Some skip ∧
        DetokenizerInputs.spaces_between_special_tokens inputs !! i
          = Some spaces ∧
        add_request tokenizer requests request_id prompt_ids skip spaces
          = Ok requests1
    end ∧
    detokenize tokenizer requests1 request_id ids = Ok (requests', text) ∧
    requests' !! request_id = Some req_state' ∧
    n = num_output req_state'.
Proof.
  unfold run_index. intros H.
  apply rbind_Ok in H as (request_id & Hid%index_Ok & H).
  apply rbind_Ok in H as (requests1 & Hreg & H).
  apply rbind_Ok in H as (ids & Hids%index_Ok & H).
  apply rbind_Ok in H as ([requests2 new_str] & Hdet & H).
  destruct (requests2 !! request_id) as [st'|] eqn:Hst'; [|done].
  injection H as <- <- <-.
  exists request_id, ids, requests1, st'. repeat split; try done.
  destruct (requests !! request_id) as [st|]; [by injection Hreg|].
  apply rbind_Ok in Hreg as (prompt_ids & Hp%index_Ok & Hreg).
  apply rbind_Ok in Hreg as (skip & Hs%index_Ok & Hreg).
  apply rbind_Ok in Hreg as (spaces & Hb%index_Ok & Hreg).
  by exists prompt_ids, skip, spaces.
Qed.

(** On an id the registry holds, only [req_ids[i]] and
    [new_token_ids[i]] are read. *)
Lemma run_index_live inputs requests i request_id req_state :
  DetokenizerInputs.req_ids inputs !! i = Some request_id →
  requests !! request_id = Some req_state →
  run_index tokenizer inputs requests i =
  ids ← index (DetokenizerInputs.new_token_ids inputs) i;
  '(req_state', text) ← detokenize_loop tokenizer req_state "" ids;
  Ok (<[request_id := req_state']> requests, text, num_output req_state').
Proof.
  intros Hid%index_Ok Hst. unfold run_index. rewrite Hid. cbn.
  rewrite Hst. cbn. apply rbind_ext. intros ids.
  rewrite (detokenize_live _ _ _ req_state) by done.
  destruct (detokenize_loop tokenizer req_state "" ids) as [[st' t]|e];
    [|done].
  cbn. by rewrite lookup_insert_eq.
Qed.

(** C3.  The count reported at a batch index for a request is the total
    number of ids of all the advances of its history, this one included:
    [k1 + ... + kn] after [n] advances that were given [k1, ..., kn] ids.
    It is the number of the state's [token_ids] beyond
    [num_prompt_tokens] right after the advance, and the history goes on
    from that state. *)
Theorem num_output_token_ids_is_sum inputs requests i request_id ids calls
    requests' text n :
  DetokenizerInputs.req_ids inputs !! i = Some request_id →
  DetokenizerInputs.new_token_ids inputs !! i = Some ids →
  match requests !! request_id with
  | Some req_state =>
      ∃ texts, lived tokenizer request_id req_state calls texts
  | None => calls = []
  end →
  run_index tokenizer inputs requests i = Ok (requests', text, n) →
  n = total_ids (calls ++ [ids]) ∧
  ∃ req_state' texts',
    requests' !! request_id = Some req_state' ∧
    n = Z.of_nat (length (token_ids req_state'))
        - num_prompt_tokens req_state' ∧
    lived tokenizer request_id req_state' (calls ++ [ids]) texts'.
Proof.
  intros Hid Hids Hlife Hrun.
  apply run_index_Ok in Hrun
    as (rid & ids' & requests1 & st' & Hid' & Hids' & Hreg & Hdet & Hst'
        & ->).
  assert (rid = request_id) as -> by congruence.
  assert (ids' = ids) as -> by congruence.
  assert (∃ st texts, requests1 !! request_id = Some st ∧
            lived tokenizer request_id st calls texts)
    as (st & texts & Hst & Hlived).
  { destruct (requests !! request_id) as [st|] eqn:Hst.
    - destruct Hlife as [texts Hlived]. subst requests1. eauto.
    - destruct Hreg as (prompt_ids & skip & spaces & _ & _ & _ & Hadd).
      subst calls.
      pose proof Hadd as (st0 & Hreq & _)%add_request_Ok.
      exists st0, []. split; [subst; apply lookup_insert_eq|].
      eapply lived_registered; [done|]. subst. apply lookup_insert_eq. }
  assert (lived tokenizer request_id st' (calls ++ [ids]) (texts ++ [text]))
    as Hlived' by by eapply lived_advanced.
  split; [by eapply lived_num_output|]. by exists st', (texts ++ [text]).
Qed.

(** C10.  At an index whose request id the registry already holds, the
    index's [prompt_token_ids], [skip_special_tokens] and
    [spaces_between_special_tokens] entries are not read: batches that
    agree on [req_ids] and [new_token_ids] have the same outcome there.
    The iteration changes nothing but the entry of that id, which keeps
    its flags, its [num_prompt_tokens] and the ids and tokens it had, and
    is extended by [new_token_ids[i]] alone. *)
Theorem live_request_ignores_registration_fields inputs inputs' requests i
    request_id req_state :
  DetokenizerInputs.req_ids inputs !! i = Some request_id →
  requests !! request_id = Some req_state →
  DetokenizerInputs.req_ids inputs' = DetokenizerInputs.req_ids inputs →
  DetokenizerInputs.new_token_ids inputs'
    = DetokenizerInputs.new_token_ids inputs →
  run_index tokenizer inputs' requests i
    = run_index tokenizer inputs requests i ∧
  ∀ requests' text n,
    run_index tokenizer inputs requests i = Ok (requests', text, n) →
    ∃ ids req_state',
      DetokenizerInputs.new_token_ids inputs !! i = Some ids ∧
      requests' = <[request_id := req_state']> requests ∧
      advanced_by ids text req_state req_state'.
Proof.
  intros Hid Hst Hreq Hnew. split.
  - rewrite !(run_index_live _ _ _ request_id req_state), Hnew;
      congruence.
  - intros requests' text n.
    rewrite (run_index_live _ _ _ request_id req_state) by done.
    intros H.
    apply rbind_Ok in H as (ids & Hids%index_Ok & H).
    apply rbind_Ok in H as ([st' t] & Hloop & H).
    injection H as <- <- <-.
    exists ids, st'. repeat split; try done.
    all: by destruct (detokenize_loop_advanced _ _ _ _ _ Hloop).
Qed.

End IndexFacts.

(** ** A whole batch *)

Section BatchFacts.
Context (tokenizer : Tokenizer).
Implicit Types (req_state : RequestState) (requests : Requests).
Implicit Types (ids : list Z) (request_id text : string).
Implicit Types (inputs : DetokenizerInputs.t) (indices : list nat).

Lemma run_indices_app inputs requests texts nums indices1 indices2 :
  run_indices tokenizer inputs requests texts nums (indices1 ++ indices2) =
  '(requests1, texts1, nums1) ←
    run_indices tokenizer inputs requests texts nums indices1;
  run_indices tokenizer inputs requests1 texts1 nums1 indices2.
Proof.
  revert requests texts nums.
  induction indices1 as [|i indices1 IH]; intros requests texts nums;
    [done|].
  cbn [app run_indices].
  destruct (run_index tokenizer inputs requests i) as [[[r t] n]|e];
    [|done].
  apply IH.
Qed.

(** The two result lists only grow at their end. *)
Lemma run_indices_acc inputs requests texts nums indices :
  run_indices tokenizer inputs requests texts nums indices =
  '(requests', texts', nums') ←
    run_indices tokenizer inputs requests [] [] indices;
  Ok (requests', texts ++ texts', nums ++ nums').
Proof.
  revert requests texts nums.
  induction indices as [|i indices IH]; intros requests texts nums.
  - cbn. by rewrite !(right_id_L [] (++)).
  - cbn [run_indices].
    destruct (run_index tokenizer inputs requests i) as [[[r t] n]|e];
      [|done].
    cbn. rewrite (IH r (texts ++ [t])), (IH r [t] [n]).
    destruct (run_indices tokenizer inputs r [] [] indices)
      as [[[r' ts] ns]|e]; [|done].
    cbn. by rewrite <- !(assoc_L (++)).
Qed.

Lemma run_indices_length inputs requests indices requests' texts nums :
  run_indices tokenizer inputs requests [] [] indices
    = Ok (requests', texts, nums) →
  length texts = length indices ∧ length nums = length indices.
Proof.
  revert requests texts nums.
  induction indices as [|i indices IH]; intros requests texts nums H.
  - by injection H as <- <- <-.
  - cbn [run_indices] in H.
    apply rbind_Ok in H as ([[r t] n] & _ & H).
    rewrite run_indices_acc in H.
    apply rbind_Ok in H as ([[r' ts] ns] & Hrest & H).
    injection H as <- <- <-. apply IH in Hrest as [Hts Hns].
    cbn. by rewrite Hts, Hns.
Qed.


Lemma run_batch_Ok requests inputs requests' detokenized :
  run_batch tokenizer requests inputs = Ok (requests', detokenized) →
  ∃ requests0,
    free_all requests (DetokenizerInputs.free_req_ids inputs)
      = Ok requests0 ∧
    run_indices tokenizer inputs requests0 [] []
      (seq 0 (length (DetokenizerInputs.req_ids inputs)))
      = Ok (requests',
            DetokenizerOutputs.detokenized_texts detokenized,
            DetokenizerOutputs.num_output_token_ids detokenized) ∧
    DetokenizerOutputs.req_ids detokenized
      = DetokenizerInputs.req_ids inputs.
Proof.
  unfold run_batch. intros H.
  apply rbind_Ok in H as (requests0 & Hfree & H).
  apply rbind_Ok in H as ([[r ts] ns] & Hrun & H).
  injection H as <- <-. by exists requests0.
Qed.

(** C4.  A response is index-aligned with the batch that caused it:
    [req_ids] is the batch's own list, the two other arrays have its
    length (zero, one or more), and their entries at index [i] are the
    text and the count produced when the loop, having gone through the
    indices before [i] and filled the arrays up to there, processed
    [req_ids[i]]. *)
Theorem response_follows_req_ids_order requests inputs requests'
    detokenized :
  run_batch tokenizer requests inputs = Ok (requests', detokenized) →
  let texts := DetokenizerOutputs.detokenized_texts detokenized in
  let nums := DetokenizerOutputs.num_output_token_ids detokenized in
  DetokenizerOutputs.req_ids detokenized
    = DetokenizerInputs.req_ids inputs ∧
  length texts = length (DetokenizerInputs.req_ids inputs) ∧
  length nums = length (DetokenizerInputs.req_ids inputs) ∧
  ∃ requests0,
    free_all requests (DetokenizerInputs.free_req_ids inputs)
      = Ok requests0 ∧
    ∀ i request_id,
      DetokenizerInputs.req_ids inputs !! i = Some request_id →
      ∃ requests_i requests_i' text n,
        run_indices tokenizer inputs requests0 [] [] (seq 0 i)
          = Ok (requests_i, take i texts, take i nums) ∧
        run_index tokenizer inputs requests_i i
          = Ok (requests_i', text, n) ∧
        texts !! i = Some text ∧
        nums !! i = Some n.
Proof.
  intros (requests0 & Hfree & Hrun & Hids)%run_batch_Ok texts nums.
  fold texts nums in Hrun.
  pose proof (run_indices_length _ _ _ _ _ _ Hrun) as [Hlt Hln].
  rewrite length_seq in Hlt, Hln.
  repeat split; try done.
  exists requests0. split; [done|]. intros i request_id Hi.
  apply lookup_lt_Some in Hi.
  replace (length (DetokenizerInputs.req_ids inputs))
    with (i + S (length (DetokenizerInputs.req_ids inputs) - S i))%nat
    in Hrun by lia.
  rewrite seq_app, run_indices_app in Hrun.
  apply rbind_Ok in Hrun as ([[ri ti] ni] & Hbefore & Hrun).
  cbn [seq run_indices] in Hrun.
  apply rbind_Ok in Hrun as ([[ri' t] n] & Hat & Hrun).
  rewrite run_indices_acc in Hrun.
  apply rbind_Ok in Hrun as ([[r' ts] ns] & _ & Hrun).
  injection Hrun as _ Ht Hn.
  apply run_indices_length in Hbefore as Hlen.
  rewrite length_seq in Hlen. destruct Hlen as [Hlti Hlni].
  exists ri, ri', t, n.
  rewrite <- Ht, <- Hn, <- !(assoc_L (++)).
  rewrite !take_app_length' by done.
  repeat split; try done.
  - rewrite lookup_app_r by lia. by rewrite Hlti, Nat.sub_diag.
  - rewrite lookup_app_r by lia. by rewrite Hlni, Nat.sub_diag.
Qed.


Lemma free_Ok requests request_id requests' :
  free requests request_id = Ok requests' →
  is_Some (requests !! request_id) ∧ requests' = delete request_id requests.
Proof.
  unfold free. destruct (requests !! request_id) eqn:E; [|done].
  intros [= <-]. eauto.
Qed.

(** After the evictions every listed id is gone and every other entry is
    as it was. *)
Lemma free_all_Ok requests (frees : list string) requests0 :
  free_all requests frees = Ok requests0 →
  ∀ request_id,
    requests0 !! request_id =
    if decide (request_id ∈ frees) then None else requests !! request_id.
Proof.
  revert requests.
  induction frees as [|x frees IH]; intros requests H request_id.
  - injection H as <-. by rewrite decide_False by apply not_elem_of_nil.
  - cbn [free_all] in H.
    apply rbind_Ok in H as (requests1 & [_ ->]%free_Ok & H).
    rewrite (IH _ H request_id).
    destruct (decide (request_id = x)) as [->|Hne].
    + rewrite (decide_True (P := x ∈ x :: frees))
        by (apply elem_of_cons; by left).
      case_decide; [done | apply lookup_delete_eq].
    + rewrite lookup_delete_ne by done.
      destruct (decide (request_id ∈ frees)).
      * by rewrite decide_True by (apply elem_of_cons; by right).
      * by rewrite decide_False by (by apply not_elem_of_cons).
Qed.



(** C2, as the module has it.  Once [free] has removed a request id, the
    registry does not hold it: [detokenize] and a second [free] on it
    raise [KeyError].  A later batch index that names the id does not
    raise on that account.  [run] registers the id afresh from the
    prompt fields of that index, whether [prompt_token_ids[i]] is empty
    or not, and advances the new state: if neither step raises, the
    iteration succeeds and reports as many output tokens as the index
    has new ids. *)
Theorem freed_request_is_registered_afresh requests request_id requests1 :
  free requests request_id = Ok requests1 →
  requests1 !! request_id = None ∧
  (∀ ids,
     detokenize tokenizer requests1 request_id ids
       = Raise (KeyError request_id)) ∧
  free requests1 request_id = Raise (KeyError request_id) ∧
  (∀ inputs i prompt_ids skip spaces ids requests2 requests3 text,
     DetokenizerInputs.req_ids inputs !! i = Some request_id →
     DetokenizerInputs.prompt_token_ids inputs !! i = Some prompt_ids →
     DetokenizerInputs.skip_special_tokens inputs !! i = Some skip →
     DetokenizerInputs.spaces_between_special_tokens inputs !! i
       = Some spaces →
     DetokenizerInputs.new_token_ids inputs !! i = Some ids →
     add_request tokenizer requests1 request_id prompt_ids skip spaces
       = Ok requests2 →
     detokenize tokenizer requests2 request_id ids = Ok (requests3, text) →
     run_index tokenizer inputs requests1 i
       = Ok (requests3, text, Z.of_nat (length ids))).
Proof.
  intros [_ ->]%free_Ok.
  assert (delete request_id requests !! request_id = None) as Hgone
    by apply lookup_delete_eq.
  repeat split; try done.
  - intros ids. unfold detokenize. by rewrite Hgone.
  - unfold free. by rewrite Hgone.
  - intros inputs i prompt_ids skip spaces ids requests2 requests3 text
      Hid%index_Ok Hp%index_Ok Hs%index_Ok Hb%index_Ok Hn%index_Ok
      Hadd Hdet.
    unfold run_index. rewrite Hid. cbn. rewrite Hgone, Hp. cbn.
    rewrite Hs. cbn. rewrite Hb. cbn. rewrite Hadd. cbn.
    rewrite Hn. cbn. rewrite Hdet. cbn.
    pose proof Hadd as (st0 & Hreq & _ & Hids0 & Hnum0 & _)%add_request_Ok.
    pose proof Hdet as (st & st' & Hst & Hloop & ->)%detokenize_Ok.
    rewrite Hreq, lookup_insert_eq in Hst. injection Hst as <-.
    rewrite lookup_insert_eq.
    destruct (detokenize_loop_advanced _ _ _ _ _ Hloop)
      as [_ Hids' _ Hnum' _ _ _].
    unfold num_output. rewrite Hids', Hnum', Hids0, Hnum0, length_app.
    do 3 f_equal. lia.
Qed.

End BatchFacts.

(** ** Arrays of different lengths *)

Section LengthFacts.
Context (tokenizer : Tokenizer).
Implicit Types (req_state : RequestState) (requests : Requests).
Implicit Types (ids : list Z) (request_id text : string).
Implicit Types (inputs : DetokenizerInputs.t) (indices : list nat).

(** An iteration reads the five per-request arrays at its own index and
    nowhere else. *)
Lemma run_index_ext inputs inputs' requests i :
  DetokenizerInputs.req_ids inputs' !! i
    = DetokenizerInputs.req_ids inputs !! i →
  DetokenizerInputs.prompt_token_ids inputs' !! i
    = DetokenizerInputs.prompt_token_ids inputs !! i →
  DetokenizerInputs.new_token_ids inputs' !! i
    = DetokenizerInputs.new_token_ids inputs !! i →
  DetokenizerInputs.skip_special_tokens inputs' !! i
    = DetokenizerInputs.skip_special_tokens inputs !! i →
  DetokenizerInputs.spaces_between_special_tokens inputs' !! i
    = DetokenizerInputs.spaces_between_special_tokens inputs !! i →
  run_index tokenizer inputs' requests i
    = run_index tokenizer inputs requests i.
Proof.
  intros H1 H2 H3 H4 H5. unfold run_index, index.
  by rewrite H1, H2, H3, H4, H5.
Qed.

Lemma run_indices_ext inputs inputs' requests texts nums indices :
  (∀ i requests1, i ∈ indices →
     run_index tokenizer inputs' requests1 i
       = run_index tokenizer inputs requests1 i) →
  run_indices tokenizer inputs' requests texts nums indices
    = run_indices tokenizer inputs requests texts nums indices.
Proof.
  revert requests texts nums.
  induction indices as [|i indices IH]; intros requests texts nums Hext;
    [done|].
  cbn [run_indices]. rewrite Hext by (apply elem_of_cons; by left).
  apply rbind_ext. intros [[r t] n]. apply IH.
  intros j r1 Hj. apply Hext, elem_of_cons. by right.
Qed.

(** A pass that succeeds has found [new_token_ids[i]] at every index it
    visited. *)
Lemma run_indices_Ok_new_token_ids inputs requests texts nums indices x :
  run_indices tokenizer inputs requests texts nums indices = Ok x →
  ∀ i, i ∈ indices →
    is_Some (DetokenizerInputs.new_token_ids inputs !! i).
Proof.
  revert requests texts nums.
  induction indices as [|j indices IH]; intros requests texts nums H i Hi.
  - by apply not_elem_of_nil in Hi.
  - cbn [run_indices] in H.
    apply rbind_Ok in H as ([[r t] n] & Hj & H).
    apply elem_of_cons in Hi as [->|Hi]; [|by eapply IH].
    apply run_index_Ok in Hj as (? & ids & ? & ? & _ & Hids & _). eauto.
Qed.

Section NeverRaises.
Hypothesis Htok : never_raises tokenizer.

Lemma add_request_total requests request_id prompt_ids skip spaces :
  ∃ req_state,
    add_request tokenizer requests request_id prompt_ids skip spaces
      = Ok (<[request_id := req_state]> requests).
Proof.
  unfold add_request.
  destruct (proj1 Htok prompt_ids skip) as [[[toks prefix] read] ->].
  cbn. eauto.
Qed.

Lemma detokenize_loop_total req_state acc ids :
  ∃ r, detokenize_loop tokenizer req_state acc ids = Ok r.
Proof.
  revert req_state acc.
  induction ids as [|id ids IH]; intros req_state acc; [cbn; eauto|].
  cbn [detokenize_loop]. unfold detokenize_one.
  destruct (proj2 Htok (token_ids req_state ++ [id]) (tokens req_state)
              (prefix_offset req_state) (read_offset req_state)
              (skip_special_tokens req_state)
              (spaces_between_special_tokens req_state))
    as [[[[new_tokens t] prefix] read] ->].
  cbn. apply IH.
Qed.

Lemma detokenize_total requests request_id req_state ids :
  requests !! request_id = Some req_state →
  ∃ r, detokenize tokenizer requests request_id ids = Ok r ∧
       is_Some (r.1 !! request_id).
Proof.
  intros Hst. rewrite (detokenize_live _ _ _ req_state) by done.
  destruct (detokenize_loop_total req_state "" ids) as [[st' t] ->].
  cbn. eexists. split; [done|]. cbn. rewrite lookup_insert_eq. eauto.
Qed.

(** With such a tokenizer an iteration can only fail on an index. *)
Lemma run_index_total_or_IndexError inputs requests i :
  (∃ r, run_index tokenizer inputs requests i = Ok r) ∨
  run_index tokenizer inputs requests i = Raise IndexError.
Proof.
  unfold run_index, index.
  destruct (DetokenizerInputs.req_ids inputs !! i) as [rid|];
    [cbn|by right].
  match goal with
  | |- context [mbind ?k (match requests !! rid with _ => _ end)] =>
      set (advance := k)
  end.
  assert (∀ req_state requests1,
            requests1 !! rid = Some req_state →
            (∃ r, advance requests1 = Ok r) ∨
            advance requests1 = Raise IndexError) as Hadvance.
  { intros st requests1 Hst. unfold advance.
    destruct (DetokenizerInputs.new_token_ids inputs !! i) as [ids|];
      [cbn|by right].
    destruct (detokenize_total requests1 rid st ids Hst)
      as ([r2 t] & -> & [st' Hst']).
    cbn in *. rewrite Hst'. eauto. }
  destruct (requests !! rid) as [st|] eqn:Hst; [cbn; by eapply Hadvance|].
  destruct (DetokenizerInputs.prompt_token_ids inputs !! i)
    as [prompt_ids|]; [cbn|by right].
  destruct (DetokenizerInputs.skip_special_tokens inputs !! i)
    as [skip|]; [cbn|by right].
  destruct (DetokenizerInputs.spaces_between_special_tokens inputs !! i)
    as [spaces|]; [cbn|by right].
  destruct (add_request_total requests rid prompt_ids skip spaces)
    as [st0 ->].
  cbn. eapply Hadvance, lookup_insert_eq.
Qed.

Lemma run_indices_total_or_IndexError inputs requests texts nums
    indices :
  (∃ r, run_indices tokenizer inputs requests texts nums indices = Ok r) ∨
  run_indices tokenizer inputs requests texts nums indices
    = Raise IndexError.
Proof.
  revert requests texts nums.
  induction indices as [|i indices IH]; intros requests texts nums;
    [left; cbn; eauto|].
  cbn [run_indices].
  destruct (run_index_total_or_IndexError inputs requests i)
    as [[[[r t] n] ->] | ->]; [cbn; apply IH | by right].
Qed.

(** When every per-request array covers the indices visited, nothing
    is out of range. *)
Lemma run_indices_in_range inputs requests texts nums indices :
  (∀ i, i ∈ indices →
     is_Some (DetokenizerInputs.req_ids inputs !! i) ∧
     is_Some (DetokenizerInputs.prompt_token_ids inputs !! i) ∧
     is_Some (DetokenizerInputs.new_token_ids inputs !! i) ∧
     is_Some (DetokenizerInputs.skip_special_tokens inputs !! i) ∧
     is_Some (DetokenizerInputs.spaces_between_special_tokens inputs
                !! i)) →
  ∃ r, run_indices tokenizer inputs requests texts nums indices = Ok r.
Proof.
  revert requests texts nums.
  induction indices as [|i indices IH]; intros requests texts nums Hin;
    [cbn; eauto|].
  cbn [run_indices].
  destruct (Hin i) as ([rid Hid] & [prompt_ids Hp] & [ids Hn] & [skip Hs]
                       & [spaces Hb]); [apply elem_of_cons; by left|].
  assert (∃ r, run_index tokenizer inputs requests i = Ok r)
    as [[[r t] n] ->].
  { destruct (run_index_total_or_IndexError inputs requests i)
      as [?|Hbad]; [done|].
    exfalso. revert Hbad. unfold run_index, index.
    rewrite Hid, Hn. cbn.
    destruct (requests !! rid) as [st|] eqn:Hst; cbn.
    - destruct (detokenize_total requests rid st ids Hst)
        as ([r2 t] & -> & [st' Hst']).
      cbn in *. by rewrite Hst'.
    - rewrite Hp, Hs, Hb. cbn.
      destruct (add_request_total requests rid prompt_ids skip spaces)
        as [st0 ->].
      cbn.
      destruct (detokenize_total (<[rid := st0]> requests) rid st0 ids)
        as ([r2 t] & -> & [st' Hst']); [apply lookup_insert_eq|].
      cbn in *. by rewrite Hst'. }
  cbn. apply IH. intros j Hj. apply Hin, elem_of_cons. by right.
Qed.

End NeverRaises.

End LengthFacts.

(** ** The worker loop *)

Section WorkerFacts.
Context (tokenizer : Tokenizer) (codec : Codec).
Implicit Types (requests : Requests) (turn : Turn).
Implicit Types (inputs : DetokenizerInputs.t).

(** A turn on a payload that is not empty, as the exception monad sees
    it. *)
Lemma run_turn_nonempty requests turn :
  message turn ≠ [] →
  run_turn tokenizer codec requests turn =
  match
    inputs ← decode codec (message turn);
    '(requests', detokenized) ← run_batch tokenizer requests inputs;
    frame ← encode codec detokenized;
    if push_ready turn then Ok (frame, requests') else Raise Again
  with
  | Ok (frame, requests') => Sent frame requests'
  | Raise e => Died e
  end.
Proof. unfold run_turn. by destruct (message turn). Qed.

Lemma run_turn_Break requests turn :
  run_turn tokenizer codec requests turn = Break ↔ message turn = [].
Proof.
  split.
  - intros H. destruct (decide (message turn = [])) as [|Hne]; [done|].
    rewrite run_turn_nonempty in H by done.
    by repeat case_match.
  - unfold run_turn. by intros ->.
Qed.

(** The loop on a supply of turns that comes in two parts. *)
Lemma run_app requests turns1 turns2 :
  run tokenizer codec requests (turns1 ++ turns2) =
  match run tokenizer codec requests turns1 with
  | (frames1, Waiting requests1) =>
      let '(frames2, final) := run tokenizer codec requests1 turns2 in
      (frames1 ++ frames2, final)
  | ended => ended
  end.
Proof.
  revert requests.
  induction turns1 as [|turn turns1 IH]; intros requests.
  - cbn. by destruct (run tokenizer codec requests turns2).
  - cbn [app run].
    destruct (run_turn tokenizer codec requests turn) as [|frame r|e];
      [done| |done].
    rewrite IH.
    destruct (run tokenizer codec r turns1) as [frames1 [|e|r1]];
      [done..|].
    by destruct (run tokenizer codec r1 turns2).
Qed.

(** C5.  A zero-length payload ends the loop at once: the frames pushed
    are those of the payloads before it, nothing is pushed for it and no
    later payload is read.  It is the only payload that does so.  A
    payload that is not empty and decodes to a batch of no requests is
    processed like any other batch: its evictions are applied, the
    response with three empty arrays is pushed and the loop goes on to
    the next payload. *)
Theorem empty_payload_ends_the_loop requests turn rest :
  (message turn = [] →
   ∀ requests0 before frames,
     run tokenizer codec requests0 before = (frames, Waiting requests) →
     run tokenizer codec requests0 (before ++ turn :: rest)
       = (frames, Terminated)) ∧
  (run_turn tokenizer codec requests turn = Break ↔ message turn = []) ∧
  (∀ inputs requests0 frame,
     message turn ≠ [] →
     decode codec (message turn) = Ok inputs →
     DetokenizerInputs.req_ids inputs = [] →
     free_all requests (DetokenizerInputs.free_req_ids inputs)
       = Ok requests0 →
     encode codec (DetokenizerOutputs.mk [] [] []) = Ok frame →
     push_ready turn = true →
     run_turn tokenizer codec requests turn = Sent frame requests0 ∧
     run tokenizer codec requests (turn :: rest) =
     (frame :: (run tokenizer codec requests0 rest).1,
      (run tokenizer codec requests0 rest).2)).
Proof.
  split; [|split].
  - intros Hempty requests0 before frames Hbefore.
    rewrite run_app, Hbefore. cbn [run].
    rewrite (proj2 (run_turn_Break requests turn) Hempty).
    by rewrite (right_id_L [] (++)).
  - apply run_turn_Break.
  - intros inputs requests0 frame Hne Hdec Hnone Hfree Henc Hready.
    assert (run_turn tokenizer codec requests turn = Sent frame requests0)
      as Hturn.
    { rewrite run_turn_nonempty by done. rewrite Hdec. cbn.
      unfold run_batch. rewrite Hfree, Hnone. cbn.
      by rewrite Henc, Hready. }
    split; [done|]. cbn [run]. rewrite Hturn.
    by destruct (run tokenizer codec requests0 rest).
Qed.

(** C6, as the module has it.  For a payload that the decoder has
    returned as a batch, a mismatch among the lengths of the per-request
    arrays has its effect during processing, where the arrays are read
    index by index.  With evictions that succeed and a tokenizer that
    does not raise: if [new_token_ids] is shorter than [req_ids] the
    turn dies of [IndexError] and nothing is pushed; if each of the four
    arrays is at least as long as [req_ids] the batch is processed
    without an error; and whatever an array holds at indices from
    [len(req_ids)] on is never read.  The statement is about decoded
    batches and holds for any codec. *)
Theorem mismatched_arrays_surface_in_processing requests turn inputs
    requests0 :
  message turn ≠ [] →
  decode codec (message turn) = Ok inputs →
  never_raises tokenizer →
  free_all requests (DetokenizerInputs.free_req_ids inputs)
    = Ok requests0 →
  let num_reqs := length (DetokenizerInputs.req_ids inputs) in
  ((length (DetokenizerInputs.new_token_ids inputs) < num_reqs)%nat →
   run_turn tokenizer codec requests turn = Died IndexError) ∧
  ((num_reqs ≤ length (DetokenizerInputs.prompt_token_ids inputs))%nat →
   (num_reqs ≤ length (DetokenizerInputs.new_token_ids inputs))%nat →
   (num_reqs ≤ length (DetokenizerInputs.skip_special_tokens inputs))%nat →
   (num_reqs ≤ length (DetokenizerInputs.spaces_between_special_tokens
                         inputs))%nat →
   ∃ r, run_batch tokenizer requests inputs = Ok r) ∧
  (∀ inputs',
     DetokenizerInputs.req_ids inputs'
       = DetokenizerInputs.req_ids inputs →
     DetokenizerInputs.free_req_ids inputs'
       = DetokenizerInputs.free_req_ids inputs →
     take num_reqs (DetokenizerInputs.prompt_token_ids inputs')
       = take num_reqs (DetokenizerInputs.prompt_token_ids inputs) →
     take num_reqs (DetokenizerInputs.new_token_ids inputs')
       = take num_reqs (DetokenizerInputs.new_token_ids inputs) →
     take num_reqs (DetokenizerInputs.skip_special_tokens inputs')
       = take num_reqs (DetokenizerInputs.skip_special_tokens inputs) →
     take num_reqs (DetokenizerInputs.spaces_between_special_tokens inputs')
       = take num_reqs
           (DetokenizerInputs.spaces_between_special_tokens inputs) →
     run_batch tokenizer requests inputs'
       = run_batch tokenizer requests inputs).
Proof.
  intros Hne Hdec Htok Hfree num_reqs. split; [|split].
  - intros Hshort. rewrite run_turn_nonempty by done. rewrite Hdec. cbn.
    unfold run_batch. rewrite Hfree. cbn. fold num_reqs.
    destruct (run_indices_total_or_IndexError tokenizer Htok inputs
                requests0 [] [] (seq 0 num_reqs)) as [[x Hx] | ->];
      [|done].
    exfalso.
    destruct (run_indices_Ok_new_token_ids _ _ _ _ _ _ _ Hx
                (length (DetokenizerInputs.new_token_ids inputs)))
      as [ids Hids].
    + apply elem_of_seq. lia.
    + apply lookup_lt_Some in Hids. lia.
  - intros Hp Hn Hs Hb. unfold run_batch. rewrite Hfree. cbn.
    fold num_reqs.
    destruct (run_indices_in_range tokenizer Htok inputs requests0 [] []
                (seq 0 num_reqs)) as [[[r ts] ns] ->]; [|cbn; eauto].
    intros i [_ Hi]%elem_of_seq.
    repeat split; apply lookup_lt_is_Some; unfold num_reqs in *; lia.
  - intros inputs' Hids Hfrees Hp Hn Hs Hb. unfold run_batch.
    rewrite Hfrees, Hids. fold num_reqs. apply rbind_ext. intros r0.
    rewrite (run_indices_ext tokenizer inputs inputs'); [done|].
    intros i r1 [_ Hi]%elem_of_seq.
    apply run_index_ext; [by rewrite Hids|..].
    all: rewrite <- (lookup_take_lt _ num_reqs i) by lia.
    all: symmetry; rewrite <- (lookup_take_lt _ num_reqs i) by lia.
    all: congruence.
Qed.

End WorkerFacts.

(** ** Concrete runs *)

Lemma fake_tokenizer_never_raises : never_raises fake_tokenizer.
Proof. split; intros; eexists; reflexivity. Qed.

Lemma r1_lived_once :
  lived fake_tokenizer "r1" r1_after_4 [[4]] ["e"].
Proof.
  apply (lived_advanced fake_tokenizer "r1" r1_registered [] []
           {["r1" := r1_registered]} [4] {["r1" := r1_after_4]} "e");
    [|vm_compute; reflexivity..].
  apply (lived_registered fake_tokenizer "r1" ∅ [1; 2; 3] false true
           {["r1" := r1_registered]}); vm_compute; reflexivity.
Qed.

Lemma detokenize_incremental_consistency_witness :
  detokenize fake_tokenizer {["r1" := r1_registered]} "r1" [4; 5] =
  '(requests1, text1) ←
    detokenize fake_tokenizer {["r1" := r1_registered]} "r1" [4];
  '(requests2, text2) ← detokenize fake_tokenizer requests1 "r1" [5];
  Ok (requests2, text1 +:+ text2).
Proof.
  apply (detokenize_incremental_consistency fake_tokenizer
           {["r1" := r1_registered]} "r1" r1_registered).
  vm_compute; reflexivity.
Defined.

Lemma detokenize_no_new_ids_witness :
  detokenize fake_tokenizer {["r1" := r1_after_4]} "r1" []
    = Ok ({["r1" := r1_after_4]}, "").
Proof.
  apply (detokenize_no_new_ids fake_tokenizer {["r1" := r1_after_4]} "r1"
           r1_after_4).
  vm_compute; reflexivity.
Defined.

Lemma output_text_is_concatenation_witness :
  output_text r1_after_4_5_6 = concat_texts ["e"; "fg"].
Proof.
  apply (output_text_is_concatenation fake_tokenizer "r1" r1_after_4_5_6
           [[4]; [5; 6]] ["e"; "fg"]).
  apply (lived_advanced fake_tokenizer "r1" r1_after_4 [[4]] ["e"]
           {["r1" := r1_after_4]} [5; 6] {["r1" := r1_after_4_5_6]} "fg");
    [apply r1_lived_once | vm_compute; reflexivity..].
Defined.

Lemma num_output_token_ids_is_sum_witness :
  run_index fake_tokenizer batch_next {["r1" := r1_after_4]} 0
    = Ok ({["r1" := r1_after_4_5_6]}, "fg", 3) ∧
  3 = total_ids [[4]; [5; 6]].
Proof.
  assert (run_index fake_tokenizer batch_next {["r1" := r1_after_4]} 0
            = Ok ({["r1" := r1_after_4_5_6]}, "fg", 3)) as Hrun
    by (vm_compute; reflexivity).
  split; [exact Hrun|].
  apply (num_output_token_ids_is_sum fake_tokenizer batch_next
           {["r1" := r1_after_4]} 0 "r1" [5; 6] [[4]]
           {["r1" := r1_after_4_5_6]} "fg" 3);
    [reflexivity | reflexivity | | exact Hrun].
  exists ["e"]. apply r1_lived_once.
Defined.

Lemma live_request_ignores_registration_fields_witness :
  run_index fake_tokenizer batch_next {["r1" := r1_after_4]} 0 =
  run_index fake_tokenizer
    (DetokenizerInputs.mk ["r1"] [[1; 2; 3]] [[5; 6]] [false] [true] [])
    {["r1" := r1_after_4]} 0.
Proof.
  apply (live_request_ignores_registration_fields fake_tokenizer
           (DetokenizerInputs.mk ["r1"] [[1; 2; 3]] [[5; 6]] [false] [true]
              [])
           batch_next {["r1" := r1_after_4]} 0 "r1" r1_after_4);
    vm_compute; reflexivity.
Defined.

Lemma response_follows_req_ids_order_witness :
  ∃ requests' detokenized,
    run_batch fake_tokenizer ∅ batch_three = Ok (requests', detokenized) ∧
    DetokenizerOutputs.req_ids detokenized = ["r2"; "r1"; "r2"] ∧
    DetokenizerOutputs.detokenized_texts detokenized = ["m"; "e"; "no"] ∧
    DetokenizerOutputs.num_output_token_ids detokenized = [1; 1; 3] ∧
    length (DetokenizerOutputs.detokenized_texts detokenized) = 3%nat.
Proof.
  destruct (run_batch fake_tokenizer ∅ batch_three)
    as [[requests' detokenized]|e] eqn:Hrun; [|by vm_compute in Hrun].
  exists requests', detokenized. split; [done|].
  destruct (response_follows_req_ids_order fake_tokenizer ∅ batch_three
              requests' detokenized Hrun) as (Hids & Hlen & _).
  vm_compute in Hrun. injection Hrun as _ <-. by vm_compute.
Defined.


Lemma freed_request_is_registered_afresh_witness :
  free {["r1" := r1_after_4]} "r1" = Ok ∅ ∧
  run_index fake_tokenizer batch_again ∅ 0
    = Ok ({["r1" := {|
             req_id := "r1"; token_ids := [4; 5]; tokens := ["e"; "f"];
             num_prompt_tokens := 0; prefix_offset := 1; read_offset := 2;
             skip_special_tokens := false;
             spaces_between_special_tokens := true;
             output_text := "ef" |}]},
          "ef", 2).
Proof.
  assert (free {["r1" := r1_after_4]} "r1" = Ok ∅) as Hfree
    by (vm_compute; reflexivity).
  split; [exact Hfree|].
  destruct (freed_request_is_registered_afresh fake_tokenizer
              {["r1" := r1_after_4]} "r1" ∅ Hfree) as (_ & _ & _ & Hre).
  eapply (Hre batch_again 0%nat [] false true [4; 5]);
    vm_compute; reflexivity.
Defined.

(** C2 as stated fails on the module: [r1] is registered by a first batch
    and freed by a second one that does not name it among its requests; a
    third batch names [r1] with an empty [prompt_token_ids] entry.  It is
    answered with the text of its two new ids and an output count of 2, and
    no [KeyError] is raised. *)
Lemma freed_request_unknown_counterexample :
  ∃ requests1 detokenized1 requests2 detokenized2 requests3,
    run_batch fake_tokenizer ∅ batch_first = Ok (requests1, detokenized1) ∧
    run_batch fake_tokenizer requests1 batch_free
      = Ok (requests2, detokenized2) ∧
    requests2 !! "r1" = None ∧
    DetokenizerInputs.prompt_token_ids batch_again !! 0%nat = Some [] ∧
    run_batch fake_tokenizer requests2 batch_again
      = Ok (requests3, DetokenizerOutputs.mk ["r1"] ["ef"] [2]) ∧
    run_batch fake_tokenizer requests2 batch_again ≠ Raise (KeyError "r1").
Proof.
  eexists _, _, _, _, _.
  repeat split; try (vm_compute; reflexivity).
  vm_compute. discriminate.
Qed.

Lemma empty_payload_ends_the_loop_witness :
  run fake_tokenizer msgpack_codec ∅
    [{| message := []; push_ready := true |};
     {| message := frame_empty_batch; push_ready := true |}]
    = ([], Terminated) ∧
  run fake_tokenizer msgpack_codec ∅
    [{| message := frame_empty_batch; push_ready := true |};
     {| message := []; push_ready := true |}]
    = ([frame_empty_response], Terminated).
Proof.
  split.
  - apply (proj1 (empty_payload_ends_the_loop fake_tokenizer msgpack_codec
                    ∅ {| message := []; push_ready := true |}
                    [{| message := frame_empty_batch; push_ready := true |}])
             eq_refl ∅ [] []).
    reflexivity.
  - destruct (empty_payload_ends_the_loop fake_tokenizer msgpack_codec ∅
                {| message := frame_empty_batch; push_ready := true |}
                [{| message := []; push_ready := true |}])
      as (_ & _ & Hbatch).
    destruct (Hbatch (DetokenizerInputs.mk [] [] [] [] [] []) ∅
                frame_empty_response) as [_ ->];
      [discriminate | vm_compute; reflexivity..].
Defined.

Lemma mismatched_arrays_surface_in_processing_witness :
  decode msgpack_codec frame_short_new_token_ids
    = Ok batch_short_new_token_ids ∧
  run_turn fake_tokenizer msgpack_codec ∅
    {| message := frame_short_new_token_ids; push_ready := true |}
    = Died IndexError.
Proof.
  assert (decode msgpack_codec frame_short_new_token_ids
            = Ok batch_short_new_token_ids) as Hdec
    by (vm_compute; reflexivity).
  split; [exact Hdec|].
  apply (mismatched_arrays_surface_in_processing fake_tokenizer
           msgpack_codec ∅
           {| message := frame_short_new_token_ids; push_ready := true |}
           batch_short_new_token_ids ∅);
    [discriminate | exact Hdec | apply fake_tokenizer_never_raises
    | reflexivity | vm_compute; lia].
Defined.

(** C6 as stated fails on the module: this frame has one request id and
    no entry in [new_token_ids].  The decoder returns the batch; nothing is
    rejected as malformed.  The loop registers [r1] and then dies of the
    [IndexError] that [inputs.new_token_ids[0]] raises. *)
Lemma length_mismatch_decode_error_counterexample :
  decode msgpack_codec frame_short_new_token_ids
    = Ok batch_short_new_token_ids ∧
  length (DetokenizerInputs.req_ids batch_short_new_token_ids)
    ≠ length (DetokenizerInputs.new_token_ids batch_short_new_token_ids) ∧
  decode msgpack_codec frame_short_new_token_ids ≠ Raise DecodeError ∧
  run_turn fake_tokenizer msgpack_codec ∅
    {| message := frame_short_new_token_ids; push_ready := true |}
    = Died IndexError.
Proof.
  repeat split; try (vm_compute; reflexivity); vm_compute; discriminate.
Qed.

(** ** Further properties of the registry operations *)

Section RegistryFacts.
Context (tokenizer : Tokenizer).
Implicit Types (req_state : RequestState) (requests : Requests).
Implicit Types (ids : list Z) (request_id text : string).
Implicit Types (inputs : DetokenizerInputs.t) (indices : list nat).

(** X1.  [add_request] files a fresh state under the id: it holds the
    prompt ids, their number, the two flags as given and no text.  Every
    other entry is left alone, and a state the id had before is replaced
    whole, whatever it was. *)
Theorem add_request_overwrites requests request_id prompt_ids skip spaces
    requests' :
  add_request tokenizer requests request_id prompt_ids skip spaces
    = Ok requests' →
  (∃ req_state,
     requests' !! request_id = Some req_state ∧
     req_id req_state = request_id ∧
     token_ids req_state = prompt_ids ∧
     num_prompt_tokens req_state = Z.of_nat (length prompt_ids) ∧
     skip_special_tokens req_state = skip ∧
     spaces_between_special_tokens req_state = spaces ∧
     output_text req_state = "") ∧
  (∀ other, other ≠ request_id → requests' !! other = requests !! other) ∧
  (∀ old,
     add_request tokenizer (<[request_id := old]> requests) request_id
       prompt_ids skip spaces = Ok requests').
Proof.
  intros Hadd. split; [|split].
  - apply add_request_Ok in Hadd as (st & -> & Hfields).
    exists st. by rewrite lookup_insert_eq.
  - intros other Hne.
    apply add_request_Ok in Hadd as (st & -> & _).
    by rewrite lookup_insert_ne.
  - intros old. revert Hadd. unfold add_request.
    destruct (convert_prompt_ids_to_tokens tokenizer prompt_ids skip)
      as [[[toks prefix] read]|e]; [|done].
    cbn. intros [= <-]. by rewrite insert_insert_eq.
Qed.

Lemma free_all_live (frees : list string) requests :
  NoDup frees →
  Forall (λ id, is_Some (requests !! id)) frees →
  ∃ requests', free_all requests frees = Ok requests'.
Proof.
  revert requests.
  induction frees as [|x frees IH]; intros requests Hnd Hlive;
    [cbn; eauto|].
  apply NoDup_cons in Hnd as [Hx Hnd].
  apply Forall_cons in Hlive as [[st Hst] Hlive].
  cbn [free_all]. unfold free. rewrite Hst. cbn. apply IH; [done|].
  apply Forall_forall. intros id Hid.
  rewrite lookup_delete_ne by (intros ->; done).
  by apply (proj1 (Forall_forall _ _) Hlive).
Qed.

(** X2.  The evictions of a batch succeed exactly when [free_req_ids]
    names registered ids and names none twice; the registry is then the
    old one without those ids.  When they fail, it is with the
    [KeyError] of an id on the list. *)
Theorem free_all_succeeds_iff requests (frees : list string) :
  (∀ requests',
     free_all requests frees = Ok requests' ↔
     NoDup frees ∧
     Forall (λ id, is_Some (requests !! id)) frees ∧
     ∀ id, requests' !! id =
           if decide (id ∈ frees) then None else requests !! id) ∧
  (∀ e, free_all requests frees = Raise e →
        ∃ id, id ∈ frees ∧ e = KeyError id).
Proof.
  split.
  - intros requests'. split.
    + intros Hfree. split; [|split]; [..|by apply free_all_Ok].
      * revert requests Hfree.
        induction frees as [|x frees IH]; intros requests Hfree;
          [constructor|].
        cbn [free_all] in Hfree.
        apply rbind_Ok in Hfree as (r1 & [_ ->]%free_Ok & Hfree).
        apply NoDup_cons. split; [|by eapply IH].
        intros Hx. pose proof (free_all_Ok _ _ _ Hfree x) as Hgone.
        rewrite decide_True in Hgone by done.
        clear IH Hgone. revert requests Hfree.
        induction frees as [|y frees IH]; intros requests Hfree;
          [by apply not_elem_of_nil in Hx|].
        cbn [free_all] in Hfree.
        apply rbind_Ok in Hfree as (r1 & [Hy ->]%free_Ok & Hfree).
        destruct (decide (x = y)) as [->|Hne].
        -- rewrite lookup_delete_eq in Hy. by destruct Hy.
        -- apply elem_of_cons in Hx as [?|Hx]; [done|].
           rewrite delete_delete in Hfree. by eapply IH.
      * revert requests Hfree.
        induction frees as [|x frees IH]; intros requests Hfree;
          [constructor|].
        cbn [free_all] in Hfree.
        apply rbind_Ok in Hfree as (r1 & [Hx ->]%free_Ok & Hfree).
        constructor; [done|].
        apply IH in Hfree. eapply Forall_impl; [exact Hfree|].
        intros id [st Hst]. cbn in Hst.
        apply lookup_delete_Some in Hst as [_ Hst]. eauto.
    + intros (Hnd & Hlive & Hlookup).
      destruct (free_all_live frees requests Hnd Hlive) as [r0 Hr0].
      rewrite Hr0. f_equal. apply map_eq. intros id.
      by rewrite Hlookup, (free_all_Ok _ _ _ Hr0).
  - revert requests.
    induction frees as [|x frees IH]; intros requests e Hfree; [done|].
    cbn [free_all] in Hfree. unfold free in Hfree.
    destruct (requests !! x) as [st|].
    + cbn in Hfree. apply IH in Hfree as (id & Hid & ->).
      exists id. split; [|done]. apply elem_of_cons. by right.
    + injection Hfree as <-. exists x. split; [|done].
      apply elem_of_cons. by left.
Qed.

End RegistryFacts.

(** ** Further properties of a batch *)

Section BatchMore.
Context (tokenizer : Tokenizer).
Implicit Types (req_state : RequestState) (requests : Requests).
Implicit Types (ids : list Z) (request_id text : string).
Implicit Types (inputs : DetokenizerInputs.t) (indices : list nat).

(** An iteration of the batch loop, seen from the entry of its own
    request id: a function of that entry alone gives the exception
    raised or else the text, the count and the new entry, and the
    registry afterwards is the old one with that entry replaced. *)
Lemma run_index_on_entry inputs i request_id :
  DetokenizerInputs.req_ids inputs !! i = Some request_id →
  ∃ on_entry : option RequestState → result (RequestState * string * Z),
    ∀ requests,
      run_index tokenizer inputs requests i =
      '(req_state', text, n) ← on_entry (requests !! request_id);
      Ok (<[request_id := req_state']> requests, text, n).
Proof.
  intros Hid.
  exists (λ entry,
    req_state ←
      match entry with
      | Some req_state => Ok req_state
      | None =>
          prompt_ids ← index (DetokenizerInputs.prompt_token_ids inputs) i;
          skip ← index (DetokenizerInputs.skip_special_tokens inputs) i;
          spaces ←
            index (DetokenizerInputs.spaces_between_special_tokens inputs)
              i;
          r ← add_request tokenizer ∅ request_id prompt_ids skip spaces;
          match r !! request_id with
          | Some req_state => Ok req_state
          | None => Raise (KeyError request_id)
          end
      end;
    ids ← index (DetokenizerInputs.new_token_ids inputs) i;
    '(req_state', text) ← detokenize_loop tokenizer req_state "" ids;
    Ok (req_state', text, num_output req_state')).
  intros requests.
  destruct (requests !! request_id) as [st|] eqn:Hst.
  - rewrite (run_index_live _ _ _ _ request_id st) by done. cbn.
    rewrite rbind_assoc. apply rbind_ext. intros ids.
    by destruct (detokenize_loop tokenizer st "" ids) as [[st' t]|e].
  - apply index_Ok in Hid. unfold run_index. rewrite Hid. cbn.
    rewrite Hst.
    destruct (index (DetokenizerInputs.prompt_token_ids inputs) i)
      as [prompt_ids|e]; [cbn|done].
    destruct (index (DetokenizerInputs.skip_special_tokens inputs) i)
      as [skip|e]; [cbn|done].
    destruct (index (DetokenizerInputs.spaces_between_special_tokens
                       inputs) i) as [spaces|e]; [cbn|done].
    unfold add_request.
    destruct (convert_prompt_ids_to_tokens tokenizer prompt_ids skip)
      as [[[toks prefix] read]|e]; [cbn|done].
    rewrite lookup_insert_eq. cbn.
    destruct (index (DetokenizerInputs.new_token_ids inputs) i)
      as [ids|e]; [cbn|done].
    rewrite (detokenize_live _ _ _ _ _ (lookup_insert_eq _ _ _)).
    match goal with
    | |- context [detokenize_loop tokenizer ?st "" ids] =>
        destruct (detokenize_loop tokenizer st "" ids) as [[st' t]|e]
    end; [cbn|done].
    by rewrite lookup_insert_eq, insert_insert_eq.
Qed.

(** X3.  The requests of a batch do not see one another.  What an
    iteration does depends on the registry only through the entry of its
    own request id: on two registries that agree on that entry it raises
    the same exception or returns the same text, the same count and the
    same new entry, and it leaves every other entry of either registry
    as it was. *)
Theorem run_index_isolated inputs i request_id requests1 requests2 :
  DetokenizerInputs.req_ids inputs !! i = Some request_id →
  requests1 !! request_id = requests2 !! request_id →
  match run_index tokenizer inputs requests1 i,
        run_index tokenizer inputs requests2 i with
  | Ok (requests1', text1, n1), Ok (requests2', text2, n2) =>
      text1 = text2 ∧ n1 = n2 ∧
      requests1' !! request_id = requests2' !! request_id ∧
      ∀ other, other ≠ request_id →
        requests1' !! other = requests1 !! other ∧
        requests2' !! other = requests2 !! other
  | Raise e1, Raise e2 => e1 = e2
  | _, _ => False
  end.
Proof.
  intros Hid Hentry.
  destruct (run_index_on_entry inputs i request_id Hid)
    as [on_entry Hiso].
  rewrite !Hiso, Hentry.
  destruct (on_entry (requests2 !! request_id)) as [[[st' t] n]|e];
    [cbn|done].
  rewrite !lookup_insert_eq. repeat split; try done.
  all: by rewrite lookup_insert_ne.
Qed.

(** X10.  Two indices of a batch that name different requests can be
    taken in either order: if taking [i] and then [j] succeeds, taking
    [j] and then [i] succeeds with the same text and count for each
    index and ends in the same registry. *)
Theorem run_index_commute inputs requests i j id_i id_j requests1
    requests2 text_i n_i text_j n_j :
  DetokenizerInputs.req_ids inputs !! i = Some id_i →
  DetokenizerInputs.req_ids inputs !! j = Some id_j →
  id_i ≠ id_j →
  run_index tokenizer inputs requests i = Ok (requests1, text_i, n_i) →
  run_index tokenizer inputs requests1 j = Ok (requests2, text_j, n_j) →
  ∃ requests1',
    run_index tokenizer inputs requests j = Ok (requests1', text_j, n_j) ∧
    run_index tokenizer inputs requests1' i = Ok (requests2, text_i, n_i).
Proof.
  intros Hi Hj Hne Hrun_i Hrun_j.
  destruct (run_index_on_entry inputs i id_i Hi) as [on_i Hiso_i].
  destruct (run_index_on_entry inputs j id_j Hj) as [on_j Hiso_j].
  rewrite Hiso_i in Hrun_i.
  apply rbind_Ok in Hrun_i as ([[st_i ti] ni] & Hon_i & [= <- <- <-]).
  rewrite Hiso_j, lookup_insert_ne in Hrun_j by done.
  apply rbind_Ok in Hrun_j as ([[st_j tj] nj] & Hon_j & [= <- <- <-]).
  exists (<[id_j := st_j]> requests). split.
  - by rewrite Hiso_j, Hon_j.
  - rewrite Hiso_i, lookup_insert_ne by done. rewrite Hon_i. cbn.
    by rewrite insert_insert_ne.
Qed.

(** X4.  The first time a batch names a request id, the entry made for it
    holds the prompt ids of that index followed by its new ids, counts
    the prompt ids as prompt, carries the flags of that index, and has as
    its whole text the text returned; the count reported is the number of
    the new ids.  Freeing the id afterwards gives back the registry as it
    was before. *)
Theorem run_index_first_appearance inputs requests i request_id requests'
    text n :
  DetokenizerInputs.req_ids inputs !! i = Some request_id →
  requests !! request_id = None →
  run_index tokenizer inputs requests i = Ok (requests', text, n) →
  (∃ prompt_ids ids skip spaces req_state,
     DetokenizerInputs.prompt_token_ids inputs !! i = Some prompt_ids ∧
     DetokenizerInputs.new_token_ids inputs !! i = Some ids ∧
     DetokenizerInputs.skip_special_tokens inputs !! i = Some skip ∧
     DetokenizerInputs.spaces_between_special_tokens inputs !! i
       = Some spaces ∧
     requests' !! request_id = Some req_state ∧
     req_id req_state = request_id ∧
     token_ids req_state = prompt_ids ++ ids ∧
     num_prompt_tokens req_state = Z.of_nat (length prompt_ids) ∧
     skip_special_tokens req_state = skip ∧
     spaces_between_special_tokens req_state = spaces ∧
     output_text req_state = text ∧
     n = Z.of_nat (length ids)) ∧
  free requests' request_id = Ok requests.
Proof.
  intros Hid Hnone Hrun.
  apply run_index_Ok in Hrun
    as (rid & ids & requests1 & st' & Hid' & Hids & Hreg & Hdet & Hst'
        & ->).
  assert (rid = request_id) as -> by congruence.
  rewrite Hnone in Hreg.
  destruct Hreg as (prompt_ids & skip & spaces & Hp & Hs & Hb & Hadd).
  apply add_request_Ok in Hadd
    as (st0 & -> & Hrid0 & Hids0 & Hnum0 & Hskip0 & Hspaces0 & Hout0).
  pose proof (detokenize_advanced _ _ _ _ _ _ _ _
                (lookup_insert_eq _ _ _) Hdet Hst')
    as [Erid Eids _ Enum Eskip Espaces Eout].
  apply detokenize_Ok in Hdet as (? & st'' & _ & _ & ->).
  split.
  - exists prompt_ids, ids, skip, spaces, st'.
    repeat split; try congruence.
    + by rewrite Eout, Hout0.
    + unfold num_output. rewrite Eids, Enum, Hids0, Hnum0, length_app.
      lia.
  - unfold free. rewrite Hst'.
    by rewrite !delete_insert_eq, delete_id.
Qed.

Lemma run_index_is_Some inputs requests i requests' text n :
  run_index tokenizer inputs requests i = Ok (requests', text, n) →
  ∃ request_id,
    DetokenizerInputs.req_ids inputs !! i = Some request_id ∧
    ∀ id, is_Some (requests' !! id) ↔
          id = request_id ∨ is_Some (requests !! id).
Proof.
  intros Hrun.
  pose proof Hrun as (rid & _ & _ & _ & Hid & _)%run_index_Ok.
  exists rid. split; [done|].
  destruct (run_index_on_entry inputs i rid Hid) as [on_entry Hiso].
  rewrite Hiso in Hrun.
  apply rbind_Ok in Hrun as ([[st' t] k] & _ & [= <- _ _]).
  intros id. destruct (decide (id = rid)) as [->|Hne].
  - rewrite lookup_insert_eq. split; [by left | eauto].
  - rewrite lookup_insert_ne by done.
    split; [by right | by intros [?|?]].
Qed.

Lemma run_indices_is_Some inputs requests texts nums indices requests'
    texts' nums' :
  run_indices tokenizer inputs requests texts nums indices
    = Ok (requests', texts', nums') →
  ∀ id, is_Some (requests' !! id) ↔
        is_Some (requests !! id) ∨
        ∃ i, i ∈ indices ∧ DetokenizerInputs.req_ids inputs !! i = Some id.
Proof.
  revert requests texts nums.
  induction indices as [|i indices IH]; intros requests texts nums H id.
  - injection H as <- _ _. split; [eauto|].
    intros [?|(i & Hi & _)]; [done|]. by apply not_elem_of_nil in Hi.
  - cbn [run_indices] in H.
    apply rbind_Ok in H as ([[r t] n] & Hi & H).
    apply run_index_is_Some in Hi as (rid & Hrid & Hr).
    rewrite (IH _ _ _ H id), Hr. split.
    + intros [[->|?]|(j & Hj & Hjid)]; eauto.
      * right. exists i. split; [apply elem_of_cons; by left|done].
      * right. exists j. split; [apply elem_of_cons; by right|done].
    + intros [?|(j & [->|Hj]%elem_of_cons & Hjid)]; eauto.
      left. left. congruence.
Qed.

(** X5.  After a batch the registry holds exactly the ids the batch
    named in [req_ids] and the ids it held before that the batch did not
    free: a batch never drops a request it was not told to free, and
    every request it was asked to decode is registered afterwards. *)
Theorem run_batch_registered_ids requests inputs requests' detokenized :
  run_batch tokenizer requests inputs = Ok (requests', detokenized) →
  ∀ id,
    is_Some (requests' !! id) ↔
    (id ∈ DetokenizerInputs.req_ids inputs) ∨
    (id ∉ DetokenizerInputs.free_req_ids inputs) ∧
    is_Some (requests !! id).
Proof.
  intros (requests0 & Hfree & Hrun & _)%run_batch_Ok id.
  rewrite (run_indices_is_Some _ _ _ _ _ _ _ _ Hrun id).
  rewrite (free_all_Ok _ _ _ Hfree id).
  assert ((∃ i, i ∈ seq 0 (length (DetokenizerInputs.req_ids inputs)) ∧
                DetokenizerInputs.req_ids inputs !! i = Some id)
          ↔ (id ∈ DetokenizerInputs.req_ids inputs)) as ->.
  { rewrite list_elem_of_lookup. split; [intros (i & _ & ?); eauto|].
    intros [i Hi]. exists i. split; [|done].
    apply elem_of_seq. apply lookup_lt_Some in Hi. lia. }
  case_decide as Hin; split.
  - intros [[st Hst]|?]; [done | by left].
  - intros [?|[? ?]]; [by right | done].
  - intros [?|?]; [by right | by left].
  - intros [?|[_ ?]]; [by right | by left].
Qed.

End BatchMore.

(** ** What a run keeps true of the registry *)

Section InvariantFacts.
Context (tokenizer : Tokenizer).
Implicit Types (req_state : RequestState) (requests : Requests).
Implicit Types (ids : list Z) (request_id text : string).
Implicit Types (inputs : DetokenizerInputs.t) (indices : list nat).

Lemma free_all_registry_ok requests (frees : list string) requests' :
  registry_ok requests →
  free_all requests frees = Ok requests' →
  registry_ok requests'.
Proof.
  intros Hok Hfree id st Hst.
  rewrite (free_all_Ok _ _ _ Hfree id) in Hst.
  case_decide; [done|]. by apply Hok.
Qed.

Lemma run_index_registry_ok inputs requests i requests' text n :
  registry_ok requests →
  run_index tokenizer inputs requests i = Ok (requests', text, n) →
  registry_ok requests' ∧
  ∃ ids, DetokenizerInputs.new_token_ids inputs !! i = Some ids ∧
         Z.of_nat (length ids) ≤ n.
Proof.
  intros Hok Hrun.
  apply run_index_Ok in Hrun
    as (rid & ids & requests1 & st' & _ & Hids & Hreg & Hdet & Hst' & ->).
  assert (registry_ok requests1) as Hok1.
  { destruct (requests !! rid) as [st|]; [by subst|].
    destruct Hreg as (prompt_ids & skip & spaces & _ & _ & _ & Hadd).
    apply add_request_Ok in Hadd as (st0 & -> & Hrid & Hids0 & Hnum0 & _).
    apply map_Forall_insert_2; [|done].
    split; [done|]. rewrite Hnum0, Hids0. lia. }
  pose proof Hdet as (st & st'' & Hst & _ & Hreq)%detokenize_Ok.
  destruct (detokenize_advanced _ _ _ _ _ _ _ _ Hst Hdet Hst')
    as [Erid Eids _ Enum _ _ _].
  destruct (Hok1 rid st Hst) as [Hrid [Hlo Hhi]].
  assert (state_ok rid st') as Hst'ok.
  { split; [congruence|]. rewrite Enum, Eids, length_app. lia. }
  split.
  - rewrite Hreq. apply map_Forall_insert_2; [|done].
    rewrite Hreq, lookup_insert_eq in Hst'. by injection Hst' as ->.
  - exists ids. split; [done|]. unfold num_output.
    rewrite Eids, Enum, length_app. lia.
Qed.

Lemma run_indices_registry_ok inputs requests texts nums indices requests'
    texts' nums' :
  registry_ok requests →
  run_indices tokenizer inputs requests texts nums indices
    = Ok (requests', texts', nums') →
  registry_ok requests' ∧
  ∃ nums2,
    nums' = nums ++ nums2 ∧
    Forall2 (λ i n,
               ∃ ids, DetokenizerInputs.new_token_ids inputs !! i
                        = Some ids ∧
                      Z.of_nat (length ids) ≤ n) indices nums2.
Proof.
  revert requests texts nums.
  induction indices as [|i indices IH]; intros requests texts nums Hok H.
  - injection H as <- _ <-. split; [done|]. exists [].
    split; [by rewrite (right_id_L [] (++)) | constructor].
  - cbn [run_indices] in H.
    apply rbind_Ok in H as ([[r t] n] & Hi & H).
    apply run_index_registry_ok in Hi as [Hokr Hn]; [|done].
    apply IH in H as [Hok' (nums2 & -> & Hall)]; [|done].
    split; [done|]. exists (n :: nums2).
    split; [by rewrite <- (assoc_L (++)) | by constructor].
Qed.

Lemma run_batch_registry_ok requests inputs requests' detokenized :
  registry_ok requests →
  run_batch tokenizer requests inputs = Ok (requests', detokenized) →
  registry_ok requests'.
Proof.
  intros Hok (requests0 & Hfree & Hrun & _)%run_batch_Ok.
  eapply run_indices_registry_ok; [|exact Hrun].
  by eapply free_all_registry_ok.
Qed.

(** X6.  In a registry that a run has built, no count can undercut the
    ids of its own index: for every index of a batch the number reported
    in [num_output_token_ids] is at least the number of new ids the
    batch carried for that index, hence never negative. *)
Theorem num_output_token_ids_lower_bound requests inputs requests'
    detokenized i ids n :
  registry_ok requests →
  run_batch tokenizer requests inputs = Ok (requests', detokenized) →
  DetokenizerInputs.new_token_ids inputs !! i = Some ids →
  DetokenizerOutputs.num_output_token_ids detokenized !! i = Some n →
  0 ≤ Z.of_nat (length ids) ≤ n.
Proof.
  intros Hok (requests0 & Hfree & Hrun & _)%run_batch_Ok Hids Hn.
  apply run_indices_registry_ok in Hrun as [_ (nums2 & Hnums & Hall)];
    [|by eapply free_all_registry_ok].
  cbn in Hnums. rewrite Hnums in Hn.
  destruct (Forall2_lookup_r _ _ _ _ _ Hall Hn) as (j & Hj & ids' & Hids'
                                                     & Hle).
  apply lookup_seq in Hj as [-> _]. cbn in Hids'.
  assert (ids' = ids) as -> by congruence. lia.
Qed.

End InvariantFacts.

Section LoopFacts.
Context (tokenizer : Tokenizer) (codec : Codec).
Implicit Types (requests : Requests) (turn : Turn) (turns : list Turn).

Lemma run_turn_Sent requests turn frame requests' :
  run_turn tokenizer codec requests turn = Sent frame requests' →
  message turn ≠ [] ∧ push_ready turn = true ∧
  ∃ inputs detokenized,
    decode codec (message turn) = Ok inputs ∧
    run_batch tokenizer requests inputs = Ok (requests', detokenized) ∧
    encode codec detokenized = Ok frame.
Proof.
  intros H.
  assert (message turn ≠ []) as Hne.
  { intros Hempty. apply (run_turn_Break tokenizer codec requests) in Hempty.
    congruence. }
  rewrite run_turn_nonempty in H by done.
  destruct (decode codec (message turn)) as [inputs|e] eqn:Hdec;
    [cbn in H|done].
  destruct (run_batch tokenizer requests inputs) as [[r out]|e] eqn:Hbatch;
    [cbn in H|done].
  destruct (encode codec out) as [f|e] eqn:Henc; [cbn in H|done].
  destruct (push_ready turn); [|done].
  injection H as <- <-. repeat split; try done. by exists inputs, out.
Qed.

Lemma run_registry_ok requests turns frames requests' :
  registry_ok requests →
  run tokenizer codec requests turns = (frames, Waiting requests') →
  registry_ok requests'.
Proof.
  revert requests frames.
  induction turns as [|turn turns IH]; intros requests frames Hok Hrun.
  - by injection Hrun as _ <-.
  - cbn [run] in Hrun.
    destruct (run_turn tokenizer codec requests turn) as [|frame r|e]
      eqn:Hturn; [done| |done].
    destruct (run tokenizer codec r turns) as [frames1 final] eqn:Hrest.
    injection Hrun as _ ->.
    apply run_turn_Sent in Hturn as (_ & _ & inputs & out & _ & Hbatch & _).
    eapply IH; [|exact Hrest]. by eapply run_batch_registry_ok.
Qed.

(** X7.  Whatever payloads the worker has served since it was started
    with its empty registry, every entry of the registry is filed under
    the id it carries, and its prompt count lies between zero and the
    number of ids it holds. *)
Theorem run_keeps_registry_ok turns frames requests :
  run tokenizer codec init_requests turns = (frames, Waiting requests) →
  registry_ok requests.
Proof.
  apply run_registry_ok. intros id st Hst.
  unfold init_requests in Hst. by rewrite lookup_empty in Hst.
Qed.

(** X8.  The loop answers each payload with one frame until it stops:
    there are never more frames than payloads; if it is still waiting,
    every payload was non-empty, every send was accepted and there is one
    frame per payload; if it has broken out or died, the payload it
    stopped at got no frame. *)
Theorem run_one_frame_per_payload requests turns frames final :
  run tokenizer codec requests turns = (frames, final) →
  (length frames ≤ length turns)%nat ∧
  (∀ requests', final = Waiting requests' →
     length frames = length turns ∧
     Forall (λ turn, message turn ≠ [] ∧ push_ready turn = true) turns) ∧
  ((∀ requests', final ≠ Waiting requests') →
   (length frames < length turns)%nat).
Proof.
  revert requests frames.
  induction turns as [|turn turns IH]; intros requests frames Hrun.
  - injection Hrun as <- <-. repeat split; [done|constructor|].
    intros H. by destruct (H requests).
  - cbn [run] in Hrun.
    destruct (run_turn tokenizer codec requests turn) as [|frame r|e]
      eqn:Hturn.
    + injection Hrun as <- <-. cbn. repeat split; try done; lia.
    + destruct (run tokenizer codec r turns) as [frames1 final1] eqn:Hrest.
      injection Hrun as <- <-.
      destruct (IH _ _ Hrest) as (Hle & Hwait & Hstop).
      apply run_turn_Sent in Hturn as (Hne & Hready & _).
      cbn. split; [lia|]. split.
      * intros requests' Hfinal.
        destruct (Hwait _ Hfinal) as [Hlen Hall].
        split; [lia | by constructor].
      * intros Hfinal. specialize (Hstop Hfinal). lia.
    + injection Hrun as <- <-. cbn. repeat split; try done; lia.
Qed.

(** X9.  No exception is handled.  A turn dies exactly when its payload
    is not empty and the decoder raises, or the batch raises (an unknown
    id to free, an index out of range, the tokenizer), or the encoder
    raises, or the send is refused; the loop then ends with that
    exception, keeps the frames pushed before and reads no later
    payload. *)
Theorem exception_ends_the_loop requests turn e :
  (run_turn tokenizer codec requests turn = Died e ↔
   message turn ≠ [] ∧
   (decode codec (message turn) = Raise e ∨
    ∃ inputs,
      decode codec (message turn) = Ok inputs ∧
      (run_batch tokenizer requests inputs = Raise e ∨
       ∃ requests' detokenized,
         run_batch tokenizer requests inputs
           = Ok (requests', detokenized) ∧
         (encode codec detokenized = Raise e ∨
          ∃ frame, encode codec detokenized = Ok frame ∧
                   push_ready turn = false ∧ e = Again)))) ∧
  (run_turn tokenizer codec requests turn = Died e →
   ∀ requests0 before frames rest,
     run tokenizer codec requests0 before = (frames, Waiting requests) →
     run tokenizer codec requests0 (before ++ turn :: rest)
       = (frames, Crashed e)).
Proof.
  split.
  - split.
    + intros H.
      assert (message turn ≠ []) as Hne.
      { intros Hempty.
        apply (run_turn_Break tokenizer codec requests) in Hempty.
        congruence. }
      split; [done|]. rewrite run_turn_nonempty in H by done.
      destruct (decode codec (message turn)) as [inputs|e1];
        [cbn in H; right; exists inputs; split; [done|]
        |injection H as <-; by left].
      destruct (run_batch tokenizer requests inputs) as [[r out]|e1];
        [cbn in H; right; exists r, out; split; [done|]
        |injection H as <-; by left].
      destruct (encode codec out) as [f|e1];
        [cbn in H; right; exists f; split; [done|]
        |injection H as <-; by left].
      destruct (push_ready turn); [done|]. by injection H as <-.
    + intros [Hne H]. rewrite run_turn_nonempty by done.
      destruct H as [-> | (inputs & -> & H)]; [done|]. cbn.
      destruct H as [-> | (r & out & -> & H)]; [done|]. cbn.
      destruct H as [-> | (f & -> & -> & ->)]; done.
  - intros Hdied requests0 before frames rest Hbefore.
    rewrite run_app, Hbefore. cbn [run]. rewrite Hdied.
    by rewrite (right_id_L [] (++)).
Qed.

End LoopFacts.

(** ** How batches compose *)

Section ComposeFacts.
Context (tokenizer : Tokenizer).
Implicit Types (req_state : RequestState) (requests : Requests).
Implicit Types (ids : list Z) (request_id text : string).
Implicit Types (inputs : DetokenizerInputs.t) (indices : list nat).

(** X11.  An exception of the tokenizer at some new id ends the call at
    that id: if the ids [xs] decode and the next id [y] makes the
    tokenizer raise, [detokenize] on [xs ++ y :: zs] raises that
    exception whatever ids [zs] follow. *)
Theorem detokenize_stops_at_first_error requests request_id xs y zs
    requests1 text e :
  detokenize tokenizer requests request_id xs = Ok (requests1, text) →
  detokenize tokenizer requests1 request_id [y] = Raise e →
  detokenize tokenizer requests request_id (xs ++ y :: zs) = Raise e.
Proof.
  intros Hxs Hy. rewrite detokenize_app, Hxs. cbn.
  change (y :: zs) with ([y] ++ zs). by rewrite detokenize_app, Hy.
Qed.

(** X12.  Naming a registered request at two indices of a batch is the
    same as naming it once with the two lists of new ids joined: the
    registry ends up as after one [detokenize] on the joined list, the
    two texts make up its text, and the second count exceeds the first
    by the number of ids of the second index. *)
Theorem same_id_twice_is_one_advance inputs requests i j request_id
    req_state ids_i ids_j requests' text_i text_j n_i n_j :
  DetokenizerInputs.req_ids inputs !! i = Some request_id →
  DetokenizerInputs.req_ids inputs !! j = Some request_id →
  DetokenizerInputs.new_token_ids inputs !! i = Some ids_i →
  DetokenizerInputs.new_token_ids inputs !! j = Some ids_j →
  requests !! request_id = Some req_state →
  run_indices tokenizer inputs requests [] [] [i; j]
    = Ok (requests', [text_i; text_j], [n_i; n_j]) →
  detokenize tokenizer requests request_id (ids_i ++ ids_j)
    = Ok (requests', text_i +:+ text_j) ∧
  n_j = n_i + Z.of_nat (length ids_j).
Proof.
  intros Hi Hj Hids_i%index_Ok Hids_j%index_Ok Hst Hrun.
  cbn [run_indices] in Hrun.
  rewrite (run_index_live _ _ _ _ request_id req_state) in Hrun by done.
  rewrite Hids_i in Hrun. cbn in Hrun.
  destruct (detokenize_loop tokenizer req_state "" ids_i)
    as [[st1 t1]|e] eqn:Hloop_i; [cbn in Hrun|done].
  rewrite (run_index_live _ _ _ _ request_id st1) in Hrun
    by (done || apply lookup_insert_eq).
  rewrite Hids_j in Hrun. cbn in Hrun.
  destruct (detokenize_loop tokenizer st1 "" ids_j)
    as [[st2 t2]|e] eqn:Hloop_j; [cbn in Hrun|done].
  injection Hrun as <- <- <- <- <-. split.
  - rewrite (detokenize_live _ _ _ req_state) by done.
    rewrite detokenize_loop_split, Hloop_i. cbn. rewrite Hloop_j. cbn.
    by rewrite insert_insert_eq.
  - destruct (detokenize_loop_advanced _ _ _ _ _ Hloop_j)
      as [_ Eids _ Enum _ _ _].
    unfold num_output. rewrite Eids, Enum, length_app. lia.
Qed.

Lemma run_index_same_lookups inputs inputs' requests i i' :
  DetokenizerInputs.req_ids inputs' !! i'
    = DetokenizerInputs.req_ids inputs !! i →
  DetokenizerInputs.prompt_token_ids inputs' !! i'
    = DetokenizerInputs.prompt_token_ids inputs !! i →
  DetokenizerInputs.new_token_ids inputs' !! i'
    = DetokenizerInputs.new_token_ids inputs !! i →
  DetokenizerInputs.skip_special_tokens inputs' !! i'
    = DetokenizerInputs.skip_special_tokens inputs !! i →
  DetokenizerInputs.spaces_between_special_tokens inputs' !! i'
    = DetokenizerInputs.spaces_between_special_tokens inputs !! i →
  run_index tokenizer inputs' requests i'
    = run_index tokenizer inputs requests i.
Proof.
  intros H1 H2 H3 H4 H5. unfold run_index, index.
  by rewrite H1, H2, H3, H4, H5.
Qed.

Lemma run_indices_shift inputs inputs' k requests texts nums indices :
  (∀ i requests1, i ∈ indices →
     run_index tokenizer inputs' requests1 (k + i)
       = run_index tokenizer inputs requests1 i) →
  run_indices tokenizer inputs' requests texts nums (Nat.add k <$> indices)
    = run_indices tokenizer inputs requests texts nums indices.
Proof.
  revert requests texts nums.
  induction indices as [|i indices IH]; intros requests texts nums Hext;
    [done|].
  cbn [fmap list_fmap run_indices].
  rewrite Hext by (apply elem_of_cons; by left).
  apply rbind_ext. intros [[r t] n]. apply IH.
  intros j r1 Hj. apply Hext, elem_of_cons. by right.
Qed.

Lemma lookup_app_add {A : Type} (l1 l2 : list A) (k i : nat) :
  length l1 = k → (l1 ++ l2) !! (k + i)%nat = l2 !! i.
Proof.
  intros <-. rewrite lookup_app_r by lia. f_equal. lia.
Qed.

(** X13.  A batch can be cut in two.  When the first part has one entry
    per request in each array, processing the whole batch is processing
    the first part with the evictions and then the second part as a
    batch of its own without evictions: same exception or same final
    registry, and the response arrays are those of the two responses
    joined. *)
Theorem run_batch_split requests
    (req_ids1 req_ids2 : list string) (prompts1 prompts2 : list (list Z))
    (news1 news2 : list (list Z)) (skips1 skips2 : list bool)
    (spaces1 spaces2 : list bool) (frees : list string) :
  length prompts1 = length req_ids1 →
  length news1 = length req_ids1 →
  length skips1 = length req_ids1 →
  length spaces1 = length req_ids1 →
  run_batch tokenizer requests
    (DetokenizerInputs.mk (req_ids1 ++ req_ids2) (prompts1 ++ prompts2)
       (news1 ++ news2) (skips1 ++ skips2) (spaces1 ++ spaces2) frees) =
  '(requests1, detokenized1) ←
    run_batch tokenizer requests
      (DetokenizerInputs.mk req_ids1 prompts1 news1 skips1 spaces1 frees);
  '(requests2, detokenized2) ←
    run_batch tokenizer requests1
      (DetokenizerInputs.mk req_ids2 prompts2 news2 skips2 spaces2 []);
  Ok (requests2,
      DetokenizerOutputs.mk (req_ids1 ++ req_ids2)
        (DetokenizerOutputs.detokenized_texts detokenized1
           ++ DetokenizerOutputs.detokenized_texts detokenized2)
        (DetokenizerOutputs.num_output_token_ids detokenized1
           ++ DetokenizerOutputs.num_output_token_ids detokenized2)).
Proof.
  intros Hp Hn Hs Hb. unfold run_batch. cbn.
  destruct (free_all requests frees) as [requests0|e]; [cbn|done].
  rewrite length_app, seq_app, run_indices_app.
  rewrite (run_indices_ext tokenizer
             (DetokenizerInputs.mk req_ids1 prompts1 news1 skips1 spaces1
                frees)).
  2:{ intros i r [_ Hi]%elem_of_seq.
      apply run_index_ext; cbn; apply lookup_app_l; lia. }
  destruct (run_indices tokenizer _ requests0 [] []
              (seq 0 (length req_ids1))) as [[[r1 ts1] ns1]|e];
    [cbn|done].
  assert (seq (length req_ids1) (length req_ids2)
          = Nat.add (length req_ids1) <$> seq 0 (length req_ids2)) as ->.
  { rewrite fmap_add_seq. f_equal. lia. }
  rewrite (run_indices_shift
             (DetokenizerInputs.mk req_ids2 prompts2 news2 skips2 spaces2
                [])).
  2:{ intros i r _.
      apply run_index_same_lookups; cbn; by apply lookup_app_add. }
  rewrite run_indices_acc.
  by destruct (run_indices tokenizer _ r1 [] [] (seq 0 (length req_ids2)))
    as [[[r2 ts2] ns2]|e].
Qed.

End ComposeFacts.

(** ** Concrete runs for the further properties *)

Lemma add_request_overwrites_witness :
  add_request fake_tokenizer (<["r1" := r1_after_4]> ∅) "r1" [1; 2; 3]
    false true
  = Ok {["r1" := r1_registered]}.
Proof.
  apply (add_request_overwrites fake_tokenizer ∅ "r1" [1; 2; 3] false true
           {["r1" := r1_registered]}).
  vm_compute; reflexivity.
Defined.

Lemma free_all_succeeds_iff_witness :
  NoDup ["r1"] ∧
  ∃ id, id ∈ ["r1"; "r1"] ∧ KeyError "r1" = KeyError id.
Proof.
  split.
  - apply (proj1 (free_all_succeeds_iff {["r1" := r1_registered]} ["r1"])
             ∅).
    vm_compute; reflexivity.
  - apply (free_all_succeeds_iff {["r1" := r1_registered]} ["r1"; "r1"]).
    vm_compute; reflexivity.
Defined.

Lemma run_index_isolated_witness :
  match run_index fake_tokenizer batch_next {["r1" := r1_after_4]} 0,
        run_index fake_tokenizer batch_next
          (<["r2" := r1_registered]> {["r1" := r1_after_4]}) 0 with
  | Ok (requests1', text1, n1), Ok (requests2', text2, n2) =>
      text1 = text2 ∧ n1 = n2 ∧
      requests1' !! "r1" = requests2' !! "r1" ∧
      ∀ other, other ≠ "r1" →
        requests1' !! other
          = ({["r1" := r1_after_4]} : Requests) !! other ∧
        requests2' !! other
          = (<["r2" := r1_registered]> {["r1" := r1_after_4]} : Requests)
              !! other
  | Raise e1, Raise e2 => e1 = e2
  | _, _ => False
  end.
Proof.
  apply (run_index_isolated fake_tokenizer batch_next 0 "r1"
           {["r1" := r1_after_4]}
           (<["r2" := r1_registered]> {["r1" := r1_after_4]}));
    vm_compute; reflexivity.
Defined.

Lemma run_index_commute_witness :
  run_index fake_tokenizer batch_three ∅ 1
    = Ok ({["r1" := r1_after_4]}, "e", 1) ∧
  run_index fake_tokenizer batch_three {["r1" := r1_after_4]} 0
    = Ok (<["r1" := r1_after_4]> {["r2" := r2_after_12]}, "m", 1).
Proof.
  destruct (run_index_commute fake_tokenizer batch_three ∅ 0 1 "r2" "r1"
              {["r2" := r2_after_12]}
              (<["r1" := r1_after_4]> {["r2" := r2_after_12]})
              "m" 1 "e" 1)
    as (requests1' & Hj & Hi);
    [vm_compute; reflexivity | vm_compute; reflexivity | discriminate
    | vm_compute; reflexivity | vm_compute; reflexivity |].
  assert (requests1' = {["r1" := r1_after_4]}) as ->.
  { vm_compute in Hj. by injection Hj as <-. }
  by split.
Defined.

Lemma run_index_first_appearance_witness :
  free {["r1" := r1_after_4]} "r1" = Ok ∅.
Proof.
  apply (run_index_first_appearance fake_tokenizer batch_first ∅ 0 "r1"
           {["r1" := r1_after_4]} "e" 1);
    vm_compute; reflexivity.
Defined.

Lemma run_batch_registered_ids_witness :
  is_Some (({["r2" := r1_registered]} : Requests) !! "r1") ↔
  ("r1" ∈ DetokenizerInputs.req_ids batch_free) ∨
  ("r1" ∉ DetokenizerInputs.free_req_ids batch_free) ∧
  is_Some ((<["r2" := r1_registered]> {["r1" := r1_after_4]} : Requests)
             !! "r1").
Proof.
  apply (run_batch_registered_ids fake_tokenizer
           (<["r2" := r1_registered]> {["r1" := r1_after_4]}) batch_free
           {["r2" := r1_registered]} (DetokenizerOutputs.mk [] [] [])).
  vm_compute; reflexivity.
Defined.

Lemma num_output_token_ids_lower_bound_witness :
  0 ≤ Z.of_nat (length [13; 14]) ≤ 3.
Proof.
  destruct (run_batch fake_tokenizer ∅ batch_three)
    as [[requests' detokenized]|e] eqn:Hrun; [|by vm_compute in Hrun].
  apply (num_output_token_ids_lower_bound fake_tokenizer ∅ batch_three
           requests' detokenized 2 [13; 14] 3).
  - intros id st Hst. by rewrite lookup_empty in Hst.
  - exact Hrun.
  - reflexivity.
  - vm_compute in Hrun. injection Hrun as _ <-. reflexivity.
Defined.

Lemma run_keeps_registry_ok_witness :
  registry_ok (<["r2" := {|
                   req_id := "r2"; token_ids := [10; 11; 12; 13; 14];
                   tokens := ["k"; "l"; "m"; "n"; "o"];
                   num_prompt_tokens := 2; prefix_offset := 4;
                   read_offset := 5; skip_special_tokens := false;
                   spaces_between_special_tokens := true;
                   output_text := "mno" |}]>
               {["r1" := r1_after_4_5_6]}).
Proof.
  pose (turns := [{| message := [Byte.x01]; push_ready := true |};
                  {| message := [Byte.x02]; push_ready := true |};
                  {| message := [Byte.x03]; push_ready := true |}]).
  apply (run_keeps_registry_ok fake_tokenizer tag_codec turns
           (run fake_tokenizer tag_codec init_requests turns).1).
  vm_compute; reflexivity.
Defined.

Lemma run_one_frame_per_payload_witness :
  (length (run fake_tokenizer tag_codec ∅
             [{| message := [Byte.x01]; push_ready := true |};
              {| message := [Byte.x04]; push_ready := true |};
              {| message := [Byte.x04]; push_ready := true |};
              {| message := [Byte.x01]; push_ready := true |}]).1
   < 4)%nat.
Proof.
  pose (turns := [{| message := [Byte.x01]; push_ready := true |};
                  {| message := [Byte.x04]; push_ready := true |};
                  {| message := [Byte.x04]; push_ready := true |};
                  {| message := [Byte.x01]; push_ready := true |}]).
  apply (run_one_frame_per_payload fake_tokenizer tag_codec ∅ turns
           (run fake_tokenizer tag_codec ∅ turns).1
           (Crashed (KeyError "r1")));
    [vm_compute; reflexivity | discriminate].
Defined.

Lemma exception_ends_the_loop_witness :
  run fake_tokenizer tag_codec ∅
    ([{| message := [Byte.x01]; push_ready := true |}]
     ++ {| message := [Byte.x03]; push_ready := false |}
     :: [{| message := [Byte.x04]; push_ready := true |}])
  = ((run fake_tokenizer tag_codec ∅
        [{| message := [Byte.x01]; push_ready := true |}]).1,
     Crashed Again).
Proof.
  assert (run_turn fake_tokenizer tag_codec {["r1" := r1_after_4]}
            {| message := [Byte.x03]; push_ready := false |} = Died Again)
    as Hdied by (vm_compute; reflexivity).
  assert (run fake_tokenizer tag_codec ∅
            [{| message := [Byte.x01]; push_ready := true |}]
          = ((run fake_tokenizer tag_codec ∅
                [{| message := [Byte.x01]; push_ready := true |}]).1,
             Waiting {["r1" := r1_after_4]}))
    as Hbefore by (vm_compute; reflexivity).
  exact (proj2 (exception_ends_the_loop fake_tokenizer tag_codec
                  {["r1" := r1_after_4]}
                  {| message := [Byte.x03]; push_ready := false |} Again)
           Hdied ∅ [{| message := [Byte.x01]; push_ready := true |}]
           (run fake_tokenizer tag_codec ∅
              [{| message := [Byte.x01]; push_ready := true |}]).1
           [{| message := [Byte.x04]; push_ready := true |}] Hbefore).
Defined.

Lemma detokenize_stops_at_first_error_witness :
  detokenize fragile_tokenizer {["r1" := r1_registered]} "r1"
    ([4] ++ (-1) :: [5; 6]) = Raise TokenizerError.
Proof.
  apply (detokenize_stops_at_first_error fragile_tokenizer
           {["r1" := r1_registered]} "r1" [4] (-1) [5; 6]
           {["r1" := r1_after_4]} "e" TokenizerError);
    vm_compute; reflexivity.
Defined.

Lemma same_id_twice_is_one_advance_witness :
  detokenize fake_tokenizer {["r1" := r1_registered]} "r1" ([4] ++ [5; 6])
    = Ok ({["r1" := r1_after_4_5_6]}, "e" +:+ "fg") ∧
  3 = 1 + Z.of_nat (length [5; 6]).
Proof.
  apply (same_id_twice_is_one_advance fake_tokenizer batch_r1_twice
           {["r1" := r1_registered]} 0 1 "r1" r1_registered [4] [5; 6]
           {["r1" := r1_after_4_5_6]} "e" "fg" 1 3);
    vm_compute; reflexivity.
Defined.

Lemma run_batch_split_witness :
  run_batch fake_tokenizer ∅ batch_three =
  '(requests1, detokenized1) ←
    run_batch fake_tokenizer ∅
      (DetokenizerInputs.mk ["r2"; "r1"] [[10; 11]; [1; 2; 3]] [[12]; [4]]
         [false; false] [true; true] []);
  '(requests2, detokenized2) ←
    run_batch fake_tokenizer requests1
      (DetokenizerInputs.mk ["r2"] [[]] [[13; 14]] [false] [true] []);
  Ok (requests2,
      DetokenizerOutputs.mk (["r2"; "r1"] ++ ["r2"])
        (DetokenizerOutputs.detokenized_texts detokenized1
           ++ DetokenizerOutputs.detokenized_texts detokenized2)
        (DetokenizerOutputs.num_output_token_ids detokenized1
           ++ DetokenizerOutputs.num_output_token_ids detokenized2)).
Proof.
  apply (run_batch_split fake_tokenizer ∅ ["r2"; "r1"] ["r2"]
           [[10; 11]; [1; 2; 3]] [[]] [[12]; [4]] [[13; 14]]
           [false; false] [false] [true; true] [true] []);
    reflexivity.
Defined.
